(** * Verification of the CSP itinerary scheduler

    Shallow embedding of [src/backend/app/services/csp_scheduler.py]:
    the class [CSP] (with [is_consistent] and the recursive [backtrack])
    and the function [generate_schedule] with its two constraints
    [no_duplicate] and [food_after_slot].

    Python values are modelled as follows.
    - A Python [dict] whose iteration order matters (the assignment and the
      formatted result) is an association list kept in insertion order:
      [d[k] = v] updates in place when [k] is present and appends otherwise,
      [del d[k]] removes the entry and raises [KeyError] when it is absent.
    - Exceptions ([IndexError], [KeyError], [ValueError]) are the [Raise]
      case of the [outcome] monad.  The Python recursion of [backtrack] is
      given a depth budget ([fuel]); running out of it is the separate
      [NoFuel] case, which the development shows never happens with the
      budget [generate_schedule] uses.
    - Dates are day ordinals in [Z], so [(end_date - start_date).days] is
      the difference [end_date - start_date].
    - An activity is an element of an arbitrary type [A] with decidable
      equality (Python [==] on the activity dicts) and a projection
      [category : A -> option string] (Python [value.get("category")]). *)

From Stdlib Require Import List String Ascii ZArith Lia Bool.
From Stdlib Require Import DecimalString DecimalZ DecimalPos.
Import ListNotations.
Open Scope string_scope.
Open Scope list_scope.

(** ** Python runtime: exceptions and the outcome monad *)

Inductive exn : Type :=
| IndexError
| KeyError
| ValueError.

Inductive outcome (T : Type) : Type :=
| Done (v : T)
| Raise (e : exn)
| NoFuel.

Arguments Done {T} v.
Arguments Raise {T} e.
Arguments NoFuel {T}.

Definition bind {T U : Type} (m : outcome T) (k : T -> outcome U) : outcome U :=
  match m with
  | Done v => k v
  | Raise e => Raise e
  | NoFuel => NoFuel
  end.

Notation "x <- m ;; k" := (bind m (fun x => k))
  (at level 61, m at next level, right associativity).

(** ** Python strings: [str(int)], [int(str)], [str.split], [str.replace] *)

(** [str(z)] for a Python int. *)
Definition py_str (z : Z) : string := NilZero.string_of_int (Z.to_int z).

(** [int(s)] on a string of decimal digits with an optional sign;
    anything else raises [ValueError]. *)
Definition py_int (s : string) : outcome Z :=
  match NilZero.int_of_string s with
  | Some i => Done (Z.of_int i)
  | None => Raise ValueError
  end.

(** [s.split(c)] for a one-character separator. *)
Fixpoint py_split (c : ascii) (s : string) : list string :=
  match s with
  | EmptyString => [EmptyString]
  | String a s' =>
      let rest := py_split c s' in
      if Ascii.eqb a c then EmptyString :: rest
      else match rest with
           | [] => [String a EmptyString]
           | w :: ws => String a w :: ws
           end
  end.

(** [s.replace(old, new)] for a non-empty [old]: the occurrences of [old]
    are replaced from left to right without overlap. *)
Fixpoint replace_fuel (n : nat) (old new s : string) : string :=
  match n with
  | O => s
  | S n' =>
      match s with
      | EmptyString => EmptyString
      | String a s' =>
          if prefix old s
          then new ++ replace_fuel n' old new
                        (substring (length old) (length s - length old) s)
          else String a (replace_fuel n' old new s')
      end
  end.

Definition py_replace (old new s : string) : string :=
  replace_fuel (S (length s)) old new s.

(** [c not in s] *)
Fixpoint char_free (c : ascii) (s : string) : bool :=
  match s with
  | EmptyString => true
  | String a s' => negb (Ascii.eqb a c) && char_free c s'
  end.

(** [xs[i]] on a list. *)
Definition py_index {T : Type} (xs : list T) (i : nat) : outcome T :=
  match nth_error xs i with
  | Some x => Done x
  | None => Raise IndexError
  end.

(** [range(n)] for a Python int [n] (empty when [n <= 0]). *)
Definition py_range (n : Z) : list Z :=
  map Z.of_nat (seq 0 (Z.to_nat n)).

(** ** Python dicts in insertion order *)

Section Dict.
Context {V : Type}.

Definition dict := list (string * V).

(** [k in d] *)
Definition dict_has (k : string) (d : dict) : bool :=
  existsb (fun kv => String.eqb k (fst kv)) d.

(** [d.get(k)] *)
Fixpoint dict_get (k : string) (d : dict) : option V :=
  match d with
  | [] => None
  | (k', v) :: d' => if String.eqb k k' then Some v else dict_get k d'
  end.

(** [d[k] = v]: in place when [k] is present, appended otherwise. *)
Definition dict_set (k : string) (v : V) (d : dict) : dict :=
  if dict_has k d
  then map (fun kv => if String.eqb k (fst kv) then (k, v) else kv) d
  else d ++ [(k, v)].

(** [del d[k]] *)
Definition dict_del (k : string) (d : dict) : outcome dict :=
  if dict_has k d
  then Done (filter (fun kv => negb (String.eqb k (fst kv))) d)
  else Raise KeyError.

(** [d.values()] *)
Definition dict_values (d : dict) : list V := map snd d.
End Dict.

(** ** The class [CSP] *)

Section Scheduler.
Context {A : Type}.
(** Python [==] on activity dicts. *)
Variable A_eq_dec : forall x y : A, {x = y} + {x <> y}.
(** [value.get("category")] *)
Variable category : A -> option string.

Definition assignment := @dict A.

(** A constraint is called as [constraint(self.assignment, var, value)]. *)
Definition constraint := assignment -> string -> A -> outcome bool.

Record CSP := mkCSP {
  variables : list string;
  domains : @dict (list A);
  constraints : list constraint
}.

(** [CSP.is_consistent]: the constraints in order, stopping at the first
    one that returns false; an exception of a constraint propagates. *)
Fixpoint check_all (cs : list constraint) (asg : assignment) (var : string)
    (value : A) : outcome bool :=
  match cs with
  | [] => Done true
  | c :: cs' =>
      b <- c asg var value ;;
      if b then check_all cs' asg var value else Done false
  end.

Definition is_consistent (csp : CSP) (asg : assignment) (var : string)
    (value : A) : outcome bool :=
  check_all (constraints csp) asg var value.

(** Python truthiness of the value returned by [backtrack]
    ([None] or the assignment dict). *)
Definition truthy (r : option assignment) : bool :=
  match r with
  | Some (_ :: _) => true
  | _ => false
  end.

(** [CSP.backtrack].  The state [self.assignment] is passed explicitly:
    a call maps the assignment before it to its result ([Some] of the
    assignment for [return self.assignment], [None] for [return None])
    and the assignment after it.  [fuel] bounds the recursion depth. *)
Fixpoint backtrack (csp : CSP) (fuel : nat) (asg : assignment)
    : outcome (option assignment * assignment) :=
  match fuel with
  | O => NoFuel
  | S fuel' =>
      if Nat.eqb (List.length asg) (List.length (variables csp))
      then Done (Some asg, asg)
      else
        var <- py_index (filter (fun v => negb (dict_has v asg))
                                (variables csp)) 0 ;;
        dom <- match dict_get var (domains csp) with
               | Some d => Done d
               | None => Raise KeyError
               end ;;
        (fix try_values (vals : list A) (asg : assignment)
             : outcome (option assignment * assignment) :=
           match vals with
           | [] => Done (None, asg)
           | value :: rest =>
               ok <- is_consistent csp asg var value ;;
               if ok then
                 r <- backtrack csp fuel' (dict_set var value asg) ;;
                 let (result, asg') := r in
                 if truthy result then Done (result, asg')
                 else asg'' <- dict_del var asg' ;; try_values rest asg''
               else try_values rest asg
           end) dom asg
  end.

(** ** [generate_schedule] *)

(** The recognised keys of the [constraints] dict. *)
Record config := mkConfig {
  get_max_per_day : option Z;
  get_food_after_slot : option Z
}.

(** [d.get(key, default)] *)
Definition get_or (o : option Z) (default : Z) : Z :=
  match o with
  | Some z => z
  | None => default
  end.

(** [f"Day{d}_Slot{s}"] *)
Definition var_name (d s : Z) : string :=
  "Day" ++ py_str d ++ "_Slot" ++ py_str s.

(** The two nested loops that build [variables]. *)
Definition make_variables (num_days max_per_day : Z) : list string :=
  flat_map (fun d => map (fun slot => var_name (d + 1)%Z (slot + 1)%Z)
                         (py_range max_per_day))
           (py_range num_days).

(** [value not in assignment.values()] *)
Definition no_duplicate : constraint :=
  fun asg var value =>
    Done (negb (existsb (fun y => if A_eq_dec value y then true else false)
                        (dict_values asg))).

Definition is_food (value : A) : bool :=
  match category value with
  | Some c => String.eqb c "food"
  | None => false
  end.

(** [food_after_slot], closing over the [constraints] dict. *)
Definition food_after_slot (cfg : config) : constraint :=
  fun asg var value =>
    if is_food value then
      part <- py_index (py_split "_" var) 1 ;;
      slot_no <- py_int (py_replace "Slot" "" part) ;;
      Done (Z.geb slot_no (get_or (get_food_after_slot cfg) 1))
    else Done true.

(** Values of the returned dict. *)
Inductive pyval : Type :=
| PStr (s : string)
| PList (l : list A).

Definition no_solution : @dict pyval :=
  [("message", PStr "No valid schedule found for given constraints")].

(** One iteration of the formatting loop over [result.items()]. *)
Definition format_step (final : @dict (list A)) (item : string * A)
    : outcome (@dict (list A)) :=
  let (var, activity) := item in
  day_key <- py_index (py_split "_" var) 0 ;;
  let final := if dict_has day_key final then final
               else dict_set day_key [] final in
  match dict_get day_key final with
  | Some l => Done (dict_set day_key (l ++ [activity]) final)
  | None => Raise KeyError
  end.

Fixpoint format_days (items : assignment) (final : @dict (list A))
    : outcome (@dict (list A)) :=
  match items with
  | [] => Done final
  | it :: rest => final' <- format_step final it ;; format_days rest final'
  end.

Definition to_output (final : @dict (list A)) : @dict pyval :=
  map (fun kv => (fst kv, PList (snd kv))) final.

Definition schedule_csp (activities : list A) (start_date end_date : Z)
    (cfg : config) : CSP :=
  let num_days := (end_date - start_date + 1)%Z in
  let max_per_day := get_or (get_max_per_day cfg) 3 in
  let vars := make_variables num_days max_per_day in
  mkCSP vars (map (fun var => (var, activities)) vars)
        [no_duplicate; food_after_slot cfg].

(** [generate_schedule(activities, start_date, end_date, constraints)];
    the recursion budget is one more than the number of variables. *)
Definition generate_schedule (activities : list A) (start_date end_date : Z)
    (cfg : config) : outcome (@dict pyval) :=
  let csp := schedule_csp activities start_date end_date cfg in
  r <- backtrack csp (S (List.length (variables csp))) [] ;;
  let (result, _) := r in
  if negb (truthy result) then Done no_solution
  else match result with
       | Some res => final <- format_days res [] ;; Done (to_output final)
       | None => Done no_solution
       end.
End Scheduler.

(** ** Vocabulary for the statements *)

Section Vocabulary.
Context {A : Type}.

(** [self.domains[var]], read as a list ([[]] when absent). *)
Definition dom_of (csp : @CSP A) (v : string) : list A :=
  match dict_get v (domains csp) with
  | Some d => d
  | None => []
  end.

(** [is_consistent] returned [True]. *)
Definition consistent (csp : @CSP A) (asg : assignment) (v : string)
    (x : A) : bool :=
  match is_consistent csp asg v x with
  | Done b => b
  | _ => false
  end.

(** All complete candidate value sequences for the variables [vs], in
    lexicographic order: earlier variables vary slowest, and the values
    of each variable come in domain order. *)
Fixpoint candidates (csp : @CSP A) (vs : list string) : list (list A) :=
  match vs with
  | [] => [[]]
  | v :: vs' =>
      flat_map (fun x => map (cons x) (candidates csp vs')) (dom_of csp v)
  end.

(** A candidate passes every constraint when its values are added one by
    one, each checked against the assignment made so far. *)
Fixpoint valid_seq (csp : @CSP A) (asg : assignment) (vs : list string)
    (vals : list A) : bool :=
  match vs, vals with
  | [], [] => true
  | v :: vs', x :: xs =>
      consistent csp asg v x && valid_seq csp (asg ++ [(v, x)]) vs' xs
  | _, _ => false
  end.

(** The first valid candidate, as a complete assignment. *)
Definition first_solution (csp : @CSP A) : option assignment :=
  option_map (combine (variables csp))
    (find (valid_seq csp [] (variables csp)) (candidates csp (variables csp))).

(** The key under which [generate_schedule] files day [d]. *)
Definition day_label (d : Z) : string := "Day" ++ py_str d.

(** The day key [var.split("_")[0]] read by the formatting loop. *)
Definition day_key (v : string) : string := hd EmptyString (py_split "_" v).

(** The variables of day [d] in slot order. *)
Definition day_vars (max_per_day d : Z) : list string :=
  map (fun slot => var_name (d + 1)%Z (slot + 1)%Z) (py_range max_per_day).

(** All activities of an output dict, day after day. *)
Definition schedule_values (out : @dict (pyval (A:=A))) : list A :=
  flat_map (fun kv => match snd kv with
                      | PList l => l
                      | PStr _ => []
                      end) out.

(** The output dict made of one entry per day: the day's label and the
    activities of its block of assignment entries. *)
Definition day_blocks_out (ds : list Z) (blocks : list (@assignment A))
    : @dict (@pyval A) :=
  to_output (map (fun p => (day_label (fst p + 1)%Z, map snd (snd p)))
                 (combine ds blocks)).
End Vocabulary.

(** ** Concrete activities for the scenarios of the spec *)

Record activity := mkAct { act_name : string; act_category : string }.

Definition activity_eq_dec (x y : activity) : {x = y} + {x <> y}.
Proof. decide equality; apply string_dec. Defined.

Definition activity_category (a : activity) : option string :=
  Some (act_category a).

Definition gen := generate_schedule activity_eq_dec activity_category.

Definition museum := mkAct "Museum" "sight".
Definition lunch := mkAct "Lunch" "food".
Definition park := mkAct "Park" "sight".

(** A CSP of two variables over [{1, 2}] with the [no_duplicate]
    constraint, for the statements about the [CSP] class itself. *)
Definition pair_csp : @CSP nat :=
  mkCSP ["a"; "b"] [("a", [1; 2]); ("b", [1; 2])] [no_duplicate Nat.eq_dec].

(** The same with the single value [1] for both variables: no solution. *)
Definition clash_csp : @CSP nat :=
  mkCSP ["a"; "b"] [("a", [1]); ("b", [1])] [no_duplicate Nat.eq_dec].

(** * Proofs *)

(** ** Dictionary facts *)

Section DictFacts.
Context {V : Type}.

Lemma dict_has_In (k : string) (d : @dict V) :
  dict_has k d = true <-> In k (map fst d).
Proof.
  unfold dict_has. rewrite existsb_exists. split.
  - intros [[k' v] [Hin Heq]]. apply String.eqb_eq in Heq. simpl in Heq.
    subst. apply in_map_iff. exists (k', v). auto.
  - intros Hin. apply in_map_iff in Hin. destruct Hin as [[k' v] [Hk Hin]].
    exists (k', v). simpl in Hk. subst. split; auto. apply String.eqb_refl.
Qed.

Lemma dict_has_false (k : string) (d : @dict V) :
  ~ In k (map fst d) -> dict_has k d = false.
Proof.
  intros H. destruct (dict_has k d) eqn:E; auto.
  apply dict_has_In in E. contradiction.
Qed.

Lemma dict_set_new (k : string) (v : V) (d : @dict V) :
  ~ In k (map fst d) -> dict_set k v d = d ++ [(k, v)].
Proof. intros H. unfold dict_set. now rewrite dict_has_false. Qed.

Lemma filter_other (k : string) (d : @dict V) :
  ~ In k (map fst d) ->
  filter (fun kv => negb (String.eqb k (fst kv))) d = d.
Proof.
  induction d as [|[k' v] d IH]; simpl; intros H; auto.
  destruct (String.eqb k k') eqn:E.
  - apply String.eqb_eq in E. subst. tauto.
  - simpl. f_equal. apply IH. tauto.
Qed.

Lemma map_set_other (k : string) (v : V) (d : @dict V) :
  ~ In k (map fst d) ->
  map (fun kv => if String.eqb k (fst kv) then (k, v) else kv) d = d.
Proof.
  induction d as [|[k' w] d IH]; simpl; intros H; auto.
  destruct (String.eqb k k') eqn:E.
  - apply String.eqb_eq in E. subst. tauto.
  - f_equal. apply IH. tauto.
Qed.

Lemma dict_has_last (k : string) (v : V) (d : @dict V) :
  dict_has k (d ++ [(k, v)]) = true.
Proof.
  apply dict_has_In. rewrite map_app. apply in_or_app. right. simpl. auto.
Qed.

Lemma dict_del_last (k : string) (v : V) (d : @dict V) :
  ~ In k (map fst d) -> dict_del k (d ++ [(k, v)]) = Done d.
Proof.
  intros H. unfold dict_del. rewrite dict_has_last.
  rewrite filter_app, filter_other by auto. simpl.
  rewrite String.eqb_refl. simpl. now rewrite app_nil_r.
Qed.

Lemma dict_get_last (k : string) (v : V) (d : @dict V) :
  ~ In k (map fst d) -> dict_get k (d ++ [(k, v)]) = Some v.
Proof.
  induction d as [|[k' w] d IH]; simpl; intros H.
  - now rewrite String.eqb_refl.
  - destruct (String.eqb k k') eqn:E.
    + apply String.eqb_eq in E. subst. tauto.
    + apply IH. tauto.
Qed.

Lemma dict_set_last (k : string) (v w : V) (d : @dict V) :
  ~ In k (map fst d) -> dict_set k w (d ++ [(k, v)]) = d ++ [(k, w)].
Proof.
  intros H. unfold dict_set. rewrite dict_has_last, map_app, map_set_other
    by auto.
  simpl. now rewrite String.eqb_refl.
Qed.

Lemma dict_get_In (k : string) (v : V) (d : @dict V) :
  dict_get k d = Some v -> In (k, v) d.
Proof.
  induction d as [|[k' w] d IH]; simpl; intros H; [discriminate|].
  destruct (String.eqb k k') eqn:E.
  - apply String.eqb_eq in E. injection H as <-. subst. auto.
  - right. auto.
Qed.

Lemma In_dict_get (k : string) (v : V) (d : @dict V) :
  NoDup (map fst d) -> In (k, v) d -> dict_get k d = Some v.
Proof.
  induction d as [|[k' w] d IH]; simpl; intros Hnd Hin; [contradiction|].
  inversion Hnd as [|? ? Hnot Hnd']; subst.
  destruct Hin as [Heq | Hin].
  - injection Heq as <- <-. now rewrite String.eqb_refl.
  - destruct (String.eqb k k') eqn:E; auto.
    apply String.eqb_eq in E. subst. exfalso. apply Hnot.
    apply in_map_iff. exists (k', v). auto.
Qed.
End DictFacts.

(** ** [find] over concatenations *)

Section FindFacts.
Context {T U : Type}.

Lemma find_app_split (p : T -> bool) (l1 l2 : list T) :
  find p (l1 ++ l2) =
  match find p l1 with Some x => Some x | None => find p l2 end.
Proof.
  induction l1 as [|x l1 IH]; simpl; auto.
  destruct (p x); auto.
Qed.

Lemma find_map_opt (p : U -> bool) (f : T -> U) (l : list T) :
  find p (map f l) = option_map f (find (fun x => p (f x)) l).
Proof.
  induction l as [|x l IH]; simpl; auto.
  destruct (p (f x)); auto.
Qed.

Lemma find_ext_in (p q : T -> bool) (l : list T) :
  (forall x, In x l -> p x = q x) -> find p l = find q l.
Proof.
  induction l as [|x l IH]; simpl; intros H; auto.
  rewrite H by auto. destruct (q x); auto.
Qed.

Lemma find_all_false (p : T -> bool) (l : list T) :
  (forall x, p x = false) -> find p l = None.
Proof.
  induction l as [|x l IH]; simpl; intros H; auto. rewrite H. auto.
Qed.
End FindFacts.

(** ** [backtrack] enumerates the candidates in lexicographic order

    For a CSP whose variables are distinct, whose domains cover every
    variable and whose constraints never raise on its variables, a call of
    [backtrack] on an assignment of the first variables, given enough
    depth, returns the first valid completion in the order of [candidates];
    when there is none it returns [None] with the assignment restored. *)

Section BacktrackCorrect.
Context {A : Type}.
Variable csp : @CSP A.
Hypothesis vars_nodup : NoDup (variables csp).
Hypothesis domains_cover :
  forall v, In v (variables csp) -> dict_get v (domains csp) <> None.
Hypothesis constraints_total :
  forall asg v x, In v (variables csp) ->
  exists b, is_consistent csp asg v x = Done b.

Lemma filter_assigned (asg : @assignment A) (l : list string) :
  (forall w, In w l -> In w (map fst asg)) ->
  filter (fun w => negb (dict_has w asg)) l = [].
Proof.
  induction l as [|w l IH]; simpl; intros H; auto.
  assert (Hw : dict_has w asg = true) by (apply dict_has_In; auto).
  rewrite Hw. simpl. auto.
Qed.

Lemma next_unassigned (asg : @assignment A) (v : string) (vs : list string) :
  map fst asg ++ v :: vs = variables csp ->
  filter (fun w => negb (dict_has w asg)) (variables csp) =
  v :: filter (fun w => negb (dict_has w asg)) vs.
Proof.
  intros Hvars.
  assert (Hnd := vars_nodup). rewrite <- Hvars in Hnd.
  apply NoDup_remove_2 in Hnd.
  rewrite <- Hvars, filter_app, filter_assigned by auto. simpl.
  rewrite dict_has_false; auto.
  intros Hin. apply Hnd. apply in_or_app. auto.
Qed.

Lemma truthy_extended (asg rest : @assignment A) (p : string * A) :
  truthy (Some ((asg ++ [p]) ++ rest)) = true.
Proof. destruct asg; reflexivity. Qed.

Lemma backtrack_find :
  forall vs asg fuel,
  map fst asg ++ vs = variables csp ->
  (List.length vs < fuel)%nat ->
  backtrack csp fuel asg =
  Done (match find (valid_seq csp asg vs) (candidates csp vs) with
        | Some vals => (Some (asg ++ combine vs vals),
                        asg ++ combine vs vals)
        | None => (None, asg)
        end).
Proof.
  induction vs as [|v vs IH]; intros asg fuel Hvars Hfuel.
  - destruct fuel as [|fuel]; [simpl in Hfuel; lia|].
    rewrite app_nil_r in Hvars. simpl.
    rewrite <- Hvars, length_map, Nat.eqb_refl, app_nil_r. reflexivity.
  - destruct fuel as [|fuel]; [simpl in Hfuel; lia|].
    assert (Hin : In v (variables csp)).
    { rewrite <- Hvars. apply in_or_app. simpl. auto. }
    assert (Hnot : ~ In v (map fst asg)).
    { intros H. assert (Hnd := vars_nodup). rewrite <- Hvars in Hnd.
      apply NoDup_remove_2 in Hnd. apply Hnd. apply in_or_app. auto. }
    assert (Hlen : Nat.eqb (List.length asg) (List.length (variables csp))
                   = false).
    { rewrite <- Hvars, length_app, length_map. simpl.
      apply Nat.eqb_neq. lia. }
    cbn [backtrack]. rewrite Hlen, (next_unassigned asg v vs Hvars).
    cbn [py_index nth_error bind candidates].
    unfold dom_of.
    destruct (dict_get v (domains csp)) as [dom|] eqn:Hd;
      [| exfalso; exact (domains_cover v Hin Hd)].
    cbn [bind]. clear Hd.
    induction dom as [|x dom IHdom]; [reflexivity|].
    cbn [flat_map]. rewrite find_app_split, find_map_opt.
    destruct (constraints_total asg v x Hin) as [b Hb].
    cbn -[backtrack candidates valid_seq dict_set dict_del].
    rewrite Hb. cbn [bind]. destruct b.
    + rewrite dict_set_new by auto.
      rewrite (IH (asg ++ [(v, x)]) fuel)
        by (rewrite ?map_app, <- ?app_assoc; simpl; auto; simpl in Hfuel; lia).
      cbn [bind].
      rewrite (find_ext_in (fun ys => valid_seq csp asg (v :: vs) (x :: ys))
                 (valid_seq csp (asg ++ [(v, x)]) vs))
        by (intros ys _; simpl; unfold consistent; now rewrite Hb).
      destruct (find (valid_seq csp (asg ++ [(v, x)]) vs) (candidates csp vs))
        as [ys|] eqn:Hf.
      * rewrite truthy_extended. simpl. rewrite <- app_assoc. reflexivity.
      * simpl truthy. cbv iota. rewrite dict_del_last by auto.
        cbn [bind]. exact IHdom.
    + rewrite find_all_false; [exact IHdom|].
      intros ys. simpl. unfold consistent. now rewrite Hb.
Qed.
End BacktrackCorrect.

Lemma valid_seq_steps {A : Type} (csp : @CSP A) :
  forall vs vals asg,
  valid_seq csp asg vs vals = true ->
  List.length vals = List.length vs /\
  forall pre v x post,
  combine vs vals = pre ++ (v, x) :: post ->
  consistent csp (asg ++ pre) v x = true.
Proof.
  induction vs as [|v vs IH]; intros [|x xs] asg H; simpl in H;
    try discriminate.
  - split; auto. intros pre v x post Hc. destruct pre; discriminate.
  - apply andb_prop in H. destruct H as [Hc Hv].
    destruct (IH xs (asg ++ [(v, x)]) Hv) as [Hl Hsteps].
    split; [simpl; auto|].
    intros pre w y post Hcomb. simpl in Hcomb.
    destruct pre as [|p pre]; simpl in Hcomb.
    + injection Hcomb as <- <- _. now rewrite app_nil_r.
    + injection Hcomb as Hp Hrest. subst p. rewrite <- (Hsteps pre w y post Hrest), <- app_assoc.
      reflexivity.
Qed.

Lemma candidates_length {A : Type} (csp : @CSP A) (dom : list A) :
  forall vs, (forall v, In v vs -> dom_of csp v = dom) ->
  List.length (candidates csp vs) = Nat.pow (List.length dom) (List.length vs).
Proof.
  induction vs as [|v vs IH]; intros Hdom; simpl; auto.
  rewrite Hdom by (left; reflexivity).
  assert (Hc : List.length (candidates csp vs) =
               Nat.pow (List.length dom) (List.length vs))
    by (apply IH; intros w Hw; apply Hdom; right; exact Hw).
  clear IH Hdom. rewrite <- Hc. clear Hc.
  induction dom as [|y d IHd]; simpl; auto.
  rewrite length_app, length_map, IHd. reflexivity.
Qed.

(** ** Decimal strings of the variable names *)

Lemma string_of_uint_free (c : ascii) (u : Decimal.uint) :
  ~ In c ["0"; "1"; "2"; "3"; "4"; "5"; "6"; "7"; "8"; "9"]%char ->
  char_free c (NilEmpty.string_of_uint u) = true.
Proof.
  intros Hc.
  induction u; cbn [NilEmpty.string_of_uint char_free]; [reflexivity|..];
    rewrite IHu, andb_true_r;
    match goal with
    | |- negb (Ascii.eqb ?a c) = true =>
        destruct (Ascii.eqb_spec a c) as [E|E];
        [subst; simpl in Hc; tauto | reflexivity]
    end.
Qed.

Lemma py_str_free (c : ascii) (z : Z) :
  ~ In c ["-"; "0"; "1"; "2"; "3"; "4"; "5"; "6"; "7"; "8"; "9"]%char ->
  char_free c (py_str z) = true.
Proof.
  intros Hc.
  assert (Hd : ~ In c ["0"; "1"; "2"; "3"; "4"; "5"; "6"; "7"; "8"; "9"]%char)
    by (intros H; apply Hc; right; exact H).
  unfold py_str, NilZero.string_of_int, NilZero.string_of_uint.
  destruct (Z.to_int z) as [u|u].
  - destruct u; try apply (string_of_uint_free c _ Hd).
    cbn [char_free]. destruct (Ascii.eqb_spec "0" c);
      [subst; simpl in Hd; tauto|reflexivity].
  - cbn [char_free]. destruct (Ascii.eqb_spec "-" c);
      [subst; simpl in Hc; tauto|].
    cbn [negb andb]. destruct u; try apply (string_of_uint_free c _ Hd).
    cbn [char_free]. destruct (Ascii.eqb_spec "0" c);
      [subst; simpl in Hd; tauto|reflexivity].
Qed.

Lemma pos_to_uint_nonnil (p : positive) : Pos.to_uint p <> Decimal.Nil.
Proof.
  intros H. assert (E := DecimalPos.Unsigned.of_to p).
  rewrite H in E. discriminate.
Qed.

Lemma py_int_str (z : Z) : py_int (py_str z) = Done z.
Proof.
  unfold py_int, py_str.
  rewrite NilZero.isi.
  - now rewrite DecimalZ.of_to.
  - destruct z; simpl; try discriminate.
    intros E. injection E. apply pos_to_uint_nonnil.
  - destruct z; simpl; try discriminate.
    intros E. injection E. apply pos_to_uint_nonnil.
Qed.

Lemma py_str_inj (z z' : Z) : py_str z = py_str z' -> z = z'.
Proof.
  intros H. assert (E := py_int_str z). rewrite H, py_int_str in E.
  now injection E.
Qed.

Lemma char_free_app (c : ascii) (s t : string) :
  char_free c (s ++ t)%string = char_free c s && char_free c t.
Proof.
  induction s as [|a s IH]; simpl; auto. rewrite IH. apply andb_assoc.
Qed.

Lemma split_free (s : string) :
  char_free "_" s = true -> py_split "_" s = [s].
Proof.
  induction s as [|a s IH]; simpl; intros H; auto.
  apply andb_prop in H. destruct H as [Ha Hs].
  apply negb_true_iff in Ha. rewrite Ha, IH by auto. reflexivity.
Qed.

Lemma split_app (s t : string) :
  char_free "_" s = true ->
  py_split "_" (s ++ String "_" t)%string = s :: py_split "_" t.
Proof.
  induction s as [|a s IH]; simpl; intros H; auto.
  apply andb_prop in H. destruct H as [Ha Hs].
  apply negb_true_iff in Ha. rewrite Ha, IH by auto. reflexivity.
Qed.

Lemma not_digit_underscore :
  ~ In "_"%char ["-"; "0"; "1"; "2"; "3"; "4"; "5"; "6"; "7"; "8"; "9"]%char.
Proof. simpl. intuition discriminate. Qed.

Lemma not_digit_S :
  ~ In "S"%char ["-"; "0"; "1"; "2"; "3"; "4"; "5"; "6"; "7"; "8"; "9"]%char.
Proof. simpl. intuition discriminate. Qed.

Lemma var_name_split (d s : Z) :
  py_split "_" (var_name d s) = [day_label d; ("Slot" ++ py_str s)%string].
Proof.
  change (var_name d s) with (day_label d ++ String "_" ("Slot" ++ py_str s))%string.
  rewrite split_app, split_free; auto.
  - rewrite char_free_app, py_str_free by exact not_digit_underscore.
    reflexivity.
  - unfold day_label. rewrite char_free_app, py_str_free
      by exact not_digit_underscore.
    reflexivity.
Qed.

Lemma day_key_var_name (d s : Z) :
  py_index (py_split "_" (var_name d s)) 0 = Done (day_label d).
Proof. now rewrite var_name_split. Qed.

Lemma substring_full (t : string) : substring 0 (String.length t) t = t.
Proof. induction t as [|a t IH]; simpl; auto. now rewrite IH. Qed.

Lemma replace_free (n : nat) (t : string) :
  char_free "S" t = true -> replace_fuel n "Slot" "" t = t.
Proof.
  revert n. induction t as [|a t IH]; intros n H; destruct n; auto.
  simpl in H. apply andb_prop in H. destruct H as [Ha Ht].
  cbn [replace_fuel prefix].
  destruct (ascii_dec "S" a) as [E|E].
  - subst a. discriminate Ha.
  - rewrite IH by exact Ht. reflexivity.
Qed.

Lemma replace_fuel_step (n : nat) (old new : string) (a : ascii) (s : string) :
  replace_fuel (S n) old new (String a s) =
  if prefix old (String a s)
  then (new ++ replace_fuel n old new
          (substring (String.length old)
             (String.length (String a s) - String.length old) (String a s)))%string
  else String a (replace_fuel n old new s).
Proof. reflexivity. Qed.

Lemma replace_slot (t : string) :
  char_free "S" t = true -> py_replace "Slot" "" ("Slot" ++ t)%string = t.
Proof.
  intros H. unfold py_replace.
  change ("Slot" ++ t)%string with (String "S" ("lot" ++ t)%string).
  rewrite replace_fuel_step.
  replace (prefix "Slot" (String "S" ("lot" ++ t)%string)) with true
    by (simpl; destruct t; reflexivity).
  replace (substring (String.length "Slot")
             (String.length (String "S" ("lot" ++ t)%string) - String.length "Slot")
             (String "S" ("lot" ++ t)%string)) with t.
  - apply replace_free. exact H.
  - simpl. rewrite Nat.sub_0_r. symmetry. apply substring_full.
Qed.

Lemma food_after_slot_var {A : Type} (category : A -> option string)
    (cfg : config) (asg : @assignment A) (d s : Z) (x : A) :
  food_after_slot category cfg asg (var_name d s) x =
  Done (if is_food category x
        then Z.geb s (get_or (get_food_after_slot cfg) 1) else true).
Proof.
  unfold food_after_slot. destruct (is_food category x); [|reflexivity].
  rewrite var_name_split. cbn [py_index nth_error bind].
  rewrite replace_slot by (apply py_str_free; exact not_digit_S).
  rewrite py_int_str. reflexivity.
Qed.

Lemma var_name_inj (d s d' s' : Z) :
  var_name d s = var_name d' s' -> d = d' /\ s = s'.
Proof.
  intros H. assert (E := var_name_split d s).
  rewrite H, var_name_split in E. injection E as Ed Es.
  split; symmetry; apply py_str_inj; assumption.
Qed.

(** ** The variables of [generate_schedule] *)

Lemma In_py_range (z n : Z) : In z (py_range n) <-> (0 <= z < n)%Z.
Proof.
  unfold py_range. rewrite in_map_iff. split.
  - intros [k [<- Hk]]. apply in_seq in Hk. lia.
  - intros Hz. exists (Z.to_nat z). split; [lia|]. apply in_seq. lia.
Qed.

Lemma NoDup_map_injective {T U : Type} (f : T -> U) (l : list T) :
  (forall x y, f x = f y -> x = y) -> NoDup l -> NoDup (map f l).
Proof.
  intros Hf Hl. induction Hl as [|x l Hx Hl IH]; simpl; constructor; auto.
  intros Hin. apply in_map_iff in Hin. destruct Hin as [y [Hy Hin]].
  apply Hf in Hy. subst. contradiction.
Qed.

Lemma py_range_NoDup (n : Z) : NoDup (py_range n).
Proof.
  unfold py_range. apply NoDup_map_injective; [|apply seq_NoDup].
  intros x y H. lia.
Qed.

Lemma NoDup_flat_map_disjoint {T U : Type} (f : T -> list U) (l : list T) :
  NoDup l ->
  (forall t, In t l -> NoDup (f t)) ->
  (forall t t' u, In t l -> In t' l -> In u (f t) -> In u (f t') -> t = t') ->
  NoDup (flat_map f l).
Proof.
  induction l as [|t l IH]; simpl; intros Hl Hf Hdis; [constructor|].
  inversion Hl as [|? ? Hnot Hl']; subst.
  apply NoDup_app.
  - apply Hf. left. reflexivity.
  - apply IH; auto.
    intros t1 t2 u H1 H2 Hu1 Hu2. apply (Hdis t1 t2 u); auto.
  - intros u Hu Hu'. apply in_flat_map in Hu'. destruct Hu' as [t' [Ht' Hu']].
    assert (t = t') by (apply (Hdis t t' u); auto). subst. contradiction.
Qed.

Lemma In_make_variables (nd m : Z) (v : string) :
  In v (make_variables nd m) <->
  exists d s, v = var_name (d + 1) (s + 1) /\ (0 <= d < nd)%Z /\ (0 <= s < m)%Z.
Proof.
  unfold make_variables. rewrite in_flat_map. split.
  - intros [d [Hd Hv]]. apply in_map_iff in Hv. destruct Hv as [s [<- Hs]].
    apply In_py_range in Hd, Hs. exists d, s. auto.
  - intros [d [s [-> [Hd Hs]]]]. exists d. split; [apply In_py_range; auto|].
    apply in_map_iff. exists s. split; auto. apply In_py_range. auto.
Qed.

Lemma make_variables_NoDup (nd m : Z) : NoDup (make_variables nd m).
Proof.
  unfold make_variables. apply NoDup_flat_map_disjoint.
  - apply py_range_NoDup.
  - intros d _. apply NoDup_map_injective; [|apply py_range_NoDup].
    intros s s' H. apply var_name_inj in H. lia.
  - intros d d' v _ _ Hv Hv'.
    apply in_map_iff in Hv, Hv'.
    destruct Hv as [s [<- _]]. destruct Hv' as [s' [Hv' _]].
    apply var_name_inj in Hv'. lia.
Qed.

Lemma dict_get_const_map {V : Type} (a : V) (v : string) (l : list string) :
  In v l -> dict_get v (map (fun w => (w, a)) l) = Some a.
Proof.
  induction l as [|w l IH]; simpl; intros H; [contradiction|].
  destruct (String.eqb v w) eqn:E; auto.
  destruct H as [<- | H]; auto. now rewrite String.eqb_refl in E.
Qed.

Section ScheduleCSP.
Context {A : Type}.
Variable A_eq_dec : forall x y : A, {x = y} + {x <> y}.
Variable category : A -> option string.
Variable activities : list A.
Variables start_date end_date : Z.
Variable cfg : config.

Let csp := schedule_csp A_eq_dec category activities start_date end_date cfg.
Let nd := (end_date - start_date + 1)%Z.
Let m := get_or (get_max_per_day cfg) 3.

Lemma schedule_variables : variables csp = make_variables nd m.
Proof. reflexivity. Qed.

Lemma schedule_dom (v : string) :
  In v (variables csp) -> dict_get v (domains csp) = Some activities.
Proof. intros H. apply dict_get_const_map. exact H. Qed.

Lemma schedule_dom_of (v : string) :
  In v (variables csp) -> dom_of csp v = activities.
Proof. intros H. unfold dom_of. now rewrite schedule_dom. Qed.

Lemma schedule_is_consistent (asg : @assignment A) (d s : Z) (x : A) :
  is_consistent csp asg (var_name d s) x =
  Done (negb (existsb (fun y => if A_eq_dec x y then true else false)
                      (dict_values asg))
        && (if is_food category x
            then Z.geb s (get_or (get_food_after_slot cfg) 1) else true)).
Proof.
  unfold is_consistent. simpl constraints. cbn [check_all].
  unfold no_duplicate at 1. cbn [bind].
  destruct (negb _); [|reflexivity].
  rewrite food_after_slot_var. cbn [bind].
  destruct (if is_food category x then _ else _); reflexivity.
Qed.

Lemma schedule_total (asg : @assignment A) (v : string) (x : A) :
  In v (variables csp) -> exists b, is_consistent csp asg v x = Done b.
Proof.
  rewrite schedule_variables, In_make_variables.
  intros [d [s [-> _]]]. eexists. apply schedule_is_consistent.
Qed.

Lemma schedule_backtrack (fuel : nat) :
  (List.length (variables csp) < fuel)%nat ->
  backtrack csp fuel [] =
  Done (match first_solution csp with
        | Some r => (Some r, r)
        | None => (None, [])
        end).
Proof.
  intros Hf.
  assert (Hnd : NoDup (variables csp)) by apply make_variables_NoDup.
  assert (Hdom : forall v, In v (variables csp) ->
                 dict_get v (domains csp) <> None)
    by (intros v Hv; rewrite schedule_dom by exact Hv; discriminate).
  rewrite (backtrack_find csp Hnd Hdom schedule_total (variables csp) []
             fuel eq_refl Hf).
  unfold first_solution. destruct (find _ _); reflexivity.
Qed.
End ScheduleCSP.

(** ** The formatting loop groups the days in order *)

Section Formatting.
Context {A : Type}.

Lemma format_days_app (l1 l2 : @assignment A) (final : @dict (list A)) :
  format_days (l1 ++ l2) final =
  bind (format_days l1 final) (fun final' => format_days l2 final').
Proof.
  induction l1 as [|it l1 IH] in final |- *; simpl; auto.
  destruct (format_step final it); simpl; auto.
Qed.

Lemma format_block_cont (K : string) (items : @assignment A) :
  forall (pre : @dict (list A)) (l : list A),
  ~ In K (map fst pre) ->
  (forall p, In p items -> py_index (py_split "_" (fst p)) 0 = Done K) ->
  format_days items (pre ++ [(K, l)]) = Done (pre ++ [(K, l ++ map snd items)]).
Proof.
  induction items as [|[v x] items IH]; intros pre l Hnot Hkey.
  - simpl. now rewrite app_nil_r.
  - cbn [format_days format_step].
    assert (Hv : py_index (py_split "_" v) 0 = Done K)
      by (apply (Hkey (v, x)); left; reflexivity).
    rewrite Hv. cbn [bind].
    rewrite dict_has_last, dict_get_last, dict_set_last by exact Hnot.
    cbn [bind]. rewrite IH; auto.
    + simpl. now rewrite <- app_assoc.
    + intros p Hp. apply Hkey. right. exact Hp.
Qed.

Lemma format_block (K : string) (items : @assignment A)
    (pre : @dict (list A)) :
  items <> [] ->
  ~ In K (map fst pre) ->
  (forall p, In p items -> py_index (py_split "_" (fst p)) 0 = Done K) ->
  format_days items pre = Done (pre ++ [(K, map snd items)]).
Proof.
  destruct items as [|[v x] items]; intros Hne Hnot Hkey; [congruence|].
  cbn [format_days format_step].
  assert (Hv : py_index (py_split "_" v) 0 = Done K)
    by (apply (Hkey (v, x)); left; reflexivity).
  rewrite Hv. cbn [bind].
  rewrite (dict_has_false K pre Hnot), (dict_set_new K [] pre Hnot).
  rewrite dict_get_last, dict_set_last by exact Hnot.
  cbn [bind]. apply format_block_cont; auto.
  intros p Hp. apply Hkey. right. exact Hp.
Qed.
End Formatting.

Lemma day_label_inj (a b : Z) : day_label a = day_label b -> a = b.
Proof.
  unfold day_label. simpl. intros H. injection H as H. apply py_str_inj. exact H.
Qed.

Lemma map_fst_combine {T U : Type} (l : list T) (l' : list U) :
  List.length l = List.length l' -> map fst (combine l l') = l.
Proof.
  revert l'. induction l as [|x l IH]; intros [|y l'] H; simpl in *;
    try discriminate; auto.
  f_equal. apply IH. lia.
Qed.

Section Blocks.
Context {A : Type}.
Variable m : Z.
Hypothesis m_pos : (0 < m)%Z.

Lemma format_days_blocks :
  forall (ds : list Z) (r : @assignment A) (pre : @dict (list A)),
  NoDup ds ->
  (forall d, In d ds -> ~ In (day_label (d + 1)) (map fst pre)) ->
  map fst r = flat_map (day_vars m) ds ->
  exists blocks,
    r = List.concat blocks /\
    Forall2 (fun d blk => map fst blk = day_vars m d) ds blocks /\
    format_days r pre =
    Done (pre ++ map (fun p => (day_label (fst p + 1), map snd (snd p)))
                     (combine ds blocks)).
Proof.
  induction ds as [|d ds IH]; intros r pre Hnd Hfresh Hr.
  - destruct r; [|discriminate]. exists []. simpl.
    split; auto. split; [constructor|]. now rewrite app_nil_r.
  - simpl in Hr. apply map_eq_app in Hr.
    destruct Hr as [r1 [r2 [-> [Hr1 Hr2]]]].
    inversion Hnd as [|? ? Hd Hnd']; subst.
    set (K := day_label (d + 1)).
    assert (Hkey : forall p, In p r1 ->
                   py_index (py_split "_" (fst p)) 0 = Done K).
    { intros [v x] Hp. simpl.
      assert (Hv : In v (day_vars m d)).
      { rewrite <- Hr1. apply in_map_iff. exists (v, x). auto. }
      unfold day_vars in Hv. apply in_map_iff in Hv.
      destruct Hv as [s [<- _]]. apply day_key_var_name. }
    assert (Hne : r1 <> []).
    { intros ->. simpl in Hr1. unfold day_vars, py_range in Hr1.
      destruct (Z.to_nat m) eqn:E; [lia|]. discriminate. }
    assert (HK : ~ In K (map fst pre)) by (apply Hfresh; left; auto).
    destruct (IH r2 (pre ++ [(K, map snd r1)]) Hnd') as [blocks [Hc [Hf Hfmt]]].
    + intros d' Hd' Hin. rewrite map_app in Hin. apply in_app_or in Hin.
      destruct Hin as [Hin | [Heq | []]].
      * apply (Hfresh d'); auto. right. exact Hd'.
      * simpl in Heq. apply day_label_inj in Heq.
        assert (d' = d) by lia. subst. contradiction.
    + exact Hr2.
    + exists (r1 :: blocks). split; [simpl; congruence|].
      split; [constructor; auto|].
      rewrite format_days_app, (format_block K r1 pre Hne HK Hkey).
      cbn [bind]. rewrite Hfmt. simpl. now rewrite <- app_assoc.
Qed.
End Blocks.

Lemma first_solution_spec {A : Type} (csp : @CSP A) (r : @assignment A) :
  first_solution csp = Some r ->
  map fst r = variables csp /\
  (forall pre v x post, r = pre ++ (v, x) :: post ->
   consistent csp pre v x = true).
Proof.
  unfold first_solution.
  destruct (find _ _) as [vals|] eqn:Hf; [|discriminate].
  intros H. injection H as <-.
  apply find_some in Hf. destruct Hf as [_ Hv].
  destruct (valid_seq_steps csp _ _ [] Hv) as [Hl Hsteps].
  split; [apply map_fst_combine; auto|].
  intros pre v x post Hr. apply (Hsteps pre v x post Hr).
Qed.

Lemma make_variables_empty (nd m : Z) :
  (nd <= 0 \/ m <= 0)%Z -> make_variables nd m = [].
Proof.
  intros H. unfold make_variables, py_range.
  destruct H as [H | H].
  - replace (Z.to_nat nd) with 0%nat by lia. reflexivity.
  - replace (Z.to_nat m) with 0%nat by lia.
    induction (seq 0 (Z.to_nat nd)); simpl; auto.
Qed.

Lemma make_variables_blocks (nd m : Z) :
  make_variables nd m = flat_map (day_vars m) (py_range nd).
Proof. reflexivity. Qed.

Section Generate.
Context {A : Type}.
Variable A_eq_dec : forall x y : A, {x = y} + {x <> y}.
Variable category : A -> option string.
Variable activities : list A.
Variables start_date end_date : Z.
Variable cfg : config.

Abbreviation csp := (schedule_csp A_eq_dec category activities start_date end_date cfg).
Abbreviation nd := (end_date - start_date + 1)%Z.
Abbreviation m := (get_or (get_max_per_day cfg) 3).
Abbreviation gen_out := (generate_schedule A_eq_dec category activities
                       start_date end_date cfg).

Lemma generate_result :
  gen_out =
  match first_solution csp with
  | Some ((_ :: _) as r) =>
      bind (format_days r []) (fun final => Done (to_output final))
  | _ => Done no_solution
  end.
Proof.
  unfold generate_schedule.
  rewrite (schedule_backtrack A_eq_dec category activities start_date end_date
             cfg (S (List.length (variables csp)))) by lia.
  cbn [bind]. destruct (first_solution csp) as [[|p r]|]; reflexivity.
Qed.

Lemma generate_cases :
  gen_out = Done no_solution \/
  exists r blocks,
    first_solution csp = Some r /\ r <> [] /\ (0 < m)%Z /\
    r = List.concat blocks /\
    Forall2 (fun d blk => map fst blk = day_vars m d) (py_range nd) blocks /\
    gen_out = Done (day_blocks_out (py_range nd) blocks).
Proof.
  rewrite generate_result.
  destruct (first_solution csp) as [[|p r]|] eqn:Hfs; [left; auto| |left; auto].
  right. destruct (first_solution_spec _ _ Hfs) as [Hkeys _].
  assert (Hm : (0 < m)%Z).
  { destruct (Z.lt_ge_cases 0 m) as [H|H]; auto.
    simpl in Hkeys. rewrite make_variables_empty in Hkeys by lia.
    discriminate. }
  simpl variables in Hkeys. rewrite make_variables_blocks in Hkeys.
  destruct (format_days_blocks m Hm (py_range nd) (p :: r) []
              (py_range_NoDup _) (fun _ _ H => H) Hkeys)
    as [blocks [Hc [Hf Hfmt]]].
  exists (p :: r), blocks. repeat split; auto; [discriminate|].
  rewrite Hfmt. reflexivity.
Qed.

Lemma generate_no_variables :
  (nd <= 0 \/ m <= 0)%Z ->
  backtrack csp 1 [] = Done (Some [], []) /\ gen_out = Done no_solution.
Proof.
  intros H.
  assert (Hv : variables csp = []) by (apply make_variables_empty; exact H).
  split.
  - cbn [backtrack]. rewrite Hv. reflexivity.
  - unfold generate_schedule. rewrite Hv. cbn [backtrack List.length].
    rewrite Hv. reflexivity.
Qed.
End Generate.

(** ** Reading the output *)

Lemma nth_error_py_range (n : Z) (i : nat) :
  (i < Z.to_nat n)%nat -> nth_error (py_range n) i = Some (Z.of_nat i).
Proof.
  intros H. unfold py_range. rewrite nth_error_map, nth_error_seq.
  destruct (Nat.ltb_spec i (Z.to_nat n)); [reflexivity | lia].
Qed.

Lemma length_py_range (n : Z) : List.length (py_range n) = Z.to_nat n.
Proof. unfold py_range. now rewrite length_map, length_seq. Qed.

Lemma Forall2_In_combine {T U : Type} (P : T -> U -> Prop) l l' a b :
  Forall2 P l l' -> In (a, b) (combine l l') -> P a b.
Proof.
  intros HF. induction HF as [|x y l l' Hxy HF IH]; simpl; [tauto|].
  intros [E | Hin]; [injection E as <- <-; exact Hxy | auto].
Qed.

Lemma Forall2_nth_error {T U : Type} (P : T -> U -> Prop) l l' i a :
  Forall2 P l l' -> nth_error l i = Some a ->
  exists b, nth_error l' i = Some b /\ P a b /\
            nth_error (combine l l') i = Some (a, b).
Proof.
  intros HF. revert i. induction HF as [|x y l l' Hxy HF IH]; intros i Hi.
  - destruct i; discriminate.
  - destruct i as [|i]; simpl in *.
    + injection Hi as <-. exists y. auto.
    + apply IH. exact Hi.
Qed.

Lemma schedule_values_blocks {A : Type} (ds : list Z)
    (blocks : list (@assignment A)) :
  List.length ds = List.length blocks ->
  schedule_values (day_blocks_out ds blocks) = map snd (List.concat blocks).
Proof.
  revert blocks. induction ds as [|d ds IH]; intros [|b blocks] H;
    simpl in *; try discriminate; auto.
  unfold day_blocks_out, to_output in *. simpl.
  rewrite map_app. f_equal. apply IH. lia.
Qed.

Lemma In_day_blocks_out {A : Type} (ds : list Z)
    (blocks : list (@assignment A)) (k : string) (v : @pyval A) :
  In (k, v) (day_blocks_out ds blocks) ->
  exists d blk, In (d, blk) (combine ds blocks) /\
                k = day_label (d + 1) /\ v = PList (map snd blk).
Proof.
  unfold day_blocks_out, to_output. rewrite map_map, in_map_iff.
  intros [[d blk] [E Hin]]. injection E as <- <-. exists d, blk. auto.
Qed.

Lemma NoDup_snd_fresh {T U : Type} (r : list (T * U)) :
  (forall pre v x post, r = pre ++ (v, x) :: post -> ~ In x (map snd pre)) ->
  NoDup (map snd r).
Proof.
  induction r as [|[v x] r IH] using rev_ind; intros H; [constructor|].
  rewrite map_app. simpl. apply NoDup_app.
  - apply IH. intros pre w y post E. apply (H pre w y (post ++ [(v, x)])).
    rewrite E, <- app_assoc. reflexivity.
  - constructor; [intros []|constructor].
  - intros a Ha Ha'. destruct Ha' as [E | []]. subst a.
    apply (H r v x []); auto.
Qed.

Section ScheduleProps.
Context {A : Type}.
Variable A_eq_dec : forall x y : A, {x = y} + {x <> y}.
Variable category : A -> option string.
Variable activities : list A.
Variables start_date end_date : Z.
Variable cfg : config.

Abbreviation csp := (schedule_csp A_eq_dec category activities start_date end_date cfg).
Abbreviation nd := (end_date - start_date + 1)%Z.
Abbreviation m := (get_or (get_max_per_day cfg) 3).
Abbreviation fas := (get_or (get_food_after_slot cfg) 1).

(** Every entry of the solution passed both constraints against the
    entries before it. *)
Lemma solution_steps (r : @assignment A) pre v x post :
  first_solution csp = Some r ->
  r = pre ++ (v, x) :: post ->
  exists d s, v = var_name (d + 1) (s + 1) /\ (0 <= s < m)%Z /\
    ~ In x (map snd pre) /\
    (is_food category x = true -> (fas <= s + 1)%Z).
Proof.
  intros Hfs Hr. destruct (first_solution_spec _ _ Hfs) as [Hkeys Hsteps].
  assert (Hv : In v (variables csp)).
  { rewrite <- Hkeys, Hr, map_app. apply in_or_app. right. left. reflexivity. }
  simpl variables in Hv. apply In_make_variables in Hv.
  destruct Hv as [d [s [-> [Hd Hs]]]].
  assert (Hc := Hsteps pre _ x post Hr). unfold consistent in Hc.
  rewrite schedule_is_consistent in Hc. apply andb_prop in Hc.
  destruct Hc as [Hnd Hfood].
  exists d, s. split; [reflexivity|]. split; [exact Hs|]. split.
  - intros Hin. apply negb_true_iff in Hnd.
    assert (Hex : existsb (fun y => if A_eq_dec x y then true else false)
                    (dict_values pre) = true).
    { apply existsb_exists. exists x. split; [exact Hin|].
      destruct (A_eq_dec x x); congruence. }
    congruence.
  - intros Hf. rewrite Hf in Hfood. apply Z.geb_le in Hfood. lia.
Qed.
End ScheduleProps.

(** ** [first_solution] depends on the constraints only through their
    verdicts on the variables *)

Lemma valid_seq_ext {A : Type} (csp1 csp2 : @CSP A) :
  forall vs vals asg,
  (forall asg' v x, In v vs -> consistent csp1 asg' v x = consistent csp2 asg' v x) ->
  valid_seq csp1 asg vs vals = valid_seq csp2 asg vs vals.
Proof.
  induction vs as [|v vs IH]; intros [|x xs] asg H; simpl; auto.
  rewrite H by (left; reflexivity). f_equal.
  apply IH. intros asg' w y Hw. apply H. right. exact Hw.
Qed.

Lemma candidates_ext {A : Type} (csp1 csp2 : @CSP A) (vs : list string) :
  domains csp1 = domains csp2 -> candidates csp1 vs = candidates csp2 vs.
Proof.
  intros H. induction vs as [|v vs IH]; simpl; auto.
  unfold dom_of. rewrite H, IH. reflexivity.
Qed.

Lemma first_solution_ext {A : Type} (csp1 csp2 : @CSP A) :
  variables csp1 = variables csp2 ->
  domains csp1 = domains csp2 ->
  (forall asg v x, In v (variables csp1) ->
   consistent csp1 asg v x = consistent csp2 asg v x) ->
  first_solution csp1 = first_solution csp2.
Proof.
  intros Hv Hd Hc. unfold first_solution.
  rewrite (candidates_ext csp1 csp2 _ Hd), <- Hv.
  rewrite (find_ext_in (valid_seq csp1 [] (variables csp1))
             (valid_seq csp2 [] (variables csp1))); auto.
  intros vals _. apply valid_seq_ext. exact Hc.
Qed.

(** * The properties of [generate_schedule] *)

(** ** Scenarios of the specification on concrete activities *)

Example scenario_A :
  gen [museum; lunch; park] 0 0 (mkConfig (Some 3%Z) (Some 2%Z)) =
  Done [("Day1", PList [museum; lunch; park])].
Proof. vm_compute. reflexivity. Qed.

Example scenario_B :
  gen [museum; lunch; park] 0 1 (mkConfig (Some 3%Z) None) = Done no_solution.
Proof. vm_compute. reflexivity. Qed.

(** Scenario C: food is never required to be scheduled; a food activity
    with no legal slot is left out and the non-food activities fill the day. *)
Example scenario_C :
  gen [lunch; museum; park] 0 0 (mkConfig (Some 2%Z) (Some 3%Z)) =
  Done [("Day1", PList [museum; park])].
Proof. vm_compute. reflexivity. Qed.

(** ** Date range and configuration are not validated *)

(** C1 (as amended): when [end_date] is before [start_date] there is no
    input validation; the number of days is not positive, no variable is
    generated, and [generate_schedule] returns the no-solution message
    dict instead of raising an error. *)
Theorem reversed_dates_no_solution {A : Type}
    (A_eq_dec : forall x y : A, {x = y} + {x <> y})
    (category : A -> option string) (activities : list A)
    (start_date end_date : Z) (cfg : config) :
  (end_date < start_date)%Z ->
  generate_schedule A_eq_dec category activities start_date end_date cfg =
  Done no_solution.
Proof.
  intros H.
  apply (generate_no_variables A_eq_dec category activities start_date
           end_date cfg). lia.
Qed.

Lemma reversed_dates_no_solution_witness :
  (0 < 3)%Z /\
  gen [museum; lunch; park] 3 0 (mkConfig None None) = Done no_solution.
Proof.
  split; [lia|].
  apply (reversed_dates_no_solution activity_eq_dec activity_category
           [museum; lunch; park] 3 0 (mkConfig None None)).
  lia.
Defined.

(** C1 refuted: with the end date three days before the start date the
    call raises no error and returns the no-solution dict. *)
Lemma reversed_dates_not_rejected :
  (forall e, gen [museum; lunch; park] 3 0 (mkConfig None None) <> Raise e) /\
  gen [museum; lunch; park] 3 0 (mkConfig None None) = Done no_solution.
Proof.
  split.
  - intros e. vm_compute. discriminate.
  - vm_compute. reflexivity.
Qed.

(** C2 (as amended): [max_per_day] and [food_after_slot] are not
    validated and no configuration makes [generate_schedule] raise.  A
    non-positive [food_after_slot] is accepted and behaves as
    [food_after_slot = 1] (every slot index is at least 1); a non-positive
    [max_per_day], whatever [food_after_slot] is, generates no variable
    and the call returns the no-solution message dict. *)
Theorem nonpositive_config_accepted {A : Type}
    (A_eq_dec : forall x y : A, {x = y} + {x <> y})
    (category : A -> option string) (activities : list A)
    (start_date end_date : Z) :
  (forall cfg, exists out,
     generate_schedule A_eq_dec category activities start_date end_date cfg =
     Done out) /\
  (forall (max_per_day : option Z) (food_slot : Z), (food_slot <= 0)%Z ->
   generate_schedule A_eq_dec category activities start_date end_date
     (mkConfig max_per_day (Some food_slot)) =
   generate_schedule A_eq_dec category activities start_date end_date
     (mkConfig max_per_day (Some 1%Z))) /\
  (forall cfg, (get_or (get_max_per_day cfg) 3 <= 0)%Z ->
   generate_schedule A_eq_dec category activities start_date end_date cfg =
   Done no_solution).
Proof.
  split; [|split].
  - intros cfg.
    destruct (generate_cases A_eq_dec category activities start_date end_date cfg)
      as [H|[r [blocks [_ [_ [_ [_ [_ H]]]]]]]]; eexists; exact H.
  - intros max_per_day food_slot Hf.
    rewrite !generate_result.
    rewrite (first_solution_ext
      (schedule_csp A_eq_dec category activities start_date end_date
         (mkConfig max_per_day (Some food_slot)))
      (schedule_csp A_eq_dec category activities start_date end_date
         (mkConfig max_per_day (Some 1%Z)))); auto.
    intros asg v x Hv. simpl variables in Hv.
    apply In_make_variables in Hv. destruct Hv as [d [s [-> [_ Hs]]]].
    unfold consistent. rewrite !schedule_is_consistent. simpl get_or.
    destruct (is_food category x).
    + replace (s + 1 >=? food_slot)%Z with true by (symmetry; apply Z.geb_le; lia).
      replace (s + 1 >=? 1)%Z with true by (symmetry; apply Z.geb_le; lia).
      reflexivity.
    + reflexivity.
  - intros cfg Hm.
    apply (generate_no_variables A_eq_dec category activities start_date
             end_date cfg).
    right. exact Hm.
Qed.

Lemma nonpositive_config_accepted_witness :
  gen [lunch; museum] 0 0 (mkConfig (Some 2%Z) (Some 0%Z)) =
  gen [lunch; museum] 0 0 (mkConfig (Some 2%Z) (Some 1%Z)) /\
  gen [museum; lunch; park] 0 0 (mkConfig (Some 0%Z) None) = Done no_solution.
Proof.
  split.
  - apply (proj1 (proj2 (nonpositive_config_accepted activity_eq_dec
             activity_category [lunch; museum] 0 0))). lia.
  - apply (proj2 (proj2 (nonpositive_config_accepted activity_eq_dec
             activity_category [museum; lunch; park] 0 0))). simpl. lia.
Defined.

(** C2 refuted: [max_per_day = 0] gives the no-solution dict and
    [food_after_slot = 0] gives a schedule with a food activity in slot 1;
    neither raises an error. *)
Lemma nonpositive_config_not_rejected :
  gen [museum; lunch; park] 0 0 (mkConfig (Some 0%Z) None) = Done no_solution /\
  gen [lunch; museum] 0 0 (mkConfig (Some 2%Z) (Some 0%Z)) =
  Done [("Day1", PList [lunch; museum])].
Proof. split; vm_compute; reflexivity. Qed.

(** C10: when the formulation has no variable (a non-positive day count or
    [max_per_day]), [backtrack] returns the empty assignment as a complete
    solution, and [if not result] turns it into the no-solution dict. *)
Theorem zero_variables_no_solution {A : Type}
    (A_eq_dec : forall x y : A, {x = y} + {x <> y})
    (category : A -> option string) (activities : list A)
    (start_date end_date : Z) (cfg : config) :
  (end_date - start_date + 1 <= 0 \/ get_or (get_max_per_day cfg) 3 <= 0)%Z ->
  backtrack (schedule_csp A_eq_dec category activities start_date end_date cfg)
    1 [] = Done (Some [], []) /\
  generate_schedule A_eq_dec category activities start_date end_date cfg =
  Done no_solution.
Proof.
  intros H. apply generate_no_variables. exact H.
Qed.

Lemma zero_variables_no_solution_witness :
  (0 - 0 + 1 <= 0 \/ get_or (Some 0%Z) 3 <= 0)%Z /\
  backtrack (schedule_csp activity_eq_dec activity_category [museum] 0 0
               (mkConfig (Some 0%Z) None)) 1 [] = Done (Some [], []) /\
  gen [museum] 0 0 (mkConfig (Some 0%Z) None) = Done no_solution.
Proof.
  split; [simpl; lia|].
  apply (zero_variables_no_solution activity_eq_dec activity_category
           [museum] 0 0 (mkConfig (Some 0%Z) None)).
  simpl. lia.
Defined.

(** ** Facts about the day entries of a produced schedule *)

Lemma dict_get_notin {V : Type} (k : string) (d : @dict V) :
  ~ In k (map fst d) -> dict_get k d = None.
Proof.
  induction d as [|[k' v] d IH]; intros H; [reflexivity|].
  simpl. destruct (String.eqb k k') eqn:E.
  - apply String.eqb_eq in E. subst. exfalso. apply H. left. reflexivity.
  - apply IH. intros Hin. apply H. right. exact Hin.
Qed.

Lemma length_day_vars (m d : Z) : List.length (day_vars m d) = Z.to_nat m.
Proof. unfold day_vars. rewrite length_map. apply length_py_range. Qed.

Lemma nth_error_day_vars (m d : Z) (j : nat) :
  (j < Z.to_nat m)%nat ->
  nth_error (day_vars m d) j = Some (var_name (d + 1) (Z.of_nat j + 1)).
Proof.
  intros H. unfold day_vars. rewrite nth_error_map, nth_error_py_range by exact H.
  reflexivity.
Qed.

Lemma map_fst_day_blocks_out {A : Type} (ds : list Z)
    (blocks : list (@assignment A)) :
  List.length ds = List.length blocks ->
  map fst (day_blocks_out ds blocks) = map (fun d => day_label (d + 1)) ds.
Proof.
  intros H. unfold day_blocks_out, to_output. rewrite !map_map. cbn [fst].
  rewrite <- (map_fst_combine ds blocks H) at 2. rewrite map_map. reflexivity.
Qed.

Lemma length_day_blocks_out {A : Type} (ds : list Z)
    (blocks : list (@assignment A)) :
  List.length ds = List.length blocks ->
  List.length (day_blocks_out ds blocks) = List.length ds.
Proof.
  intros H. unfold day_blocks_out, to_output. rewrite !length_map, length_combine.
  lia.
Qed.

Lemma no_solution_keys {A : Type} (k : string) (v : @pyval A) :
  In (k, v) no_solution -> k = "message" /\ exists s, v = PStr s.
Proof.
  intros [H|[]]. injection H as <- <-. split; [reflexivity|]. eexists. reflexivity.
Qed.

Lemma day_label_not_message (d : Z) : day_label d <> "message".
Proof. unfold day_label. cbn. discriminate. Qed.

Section Output.
Context {A : Type}.
Variable A_eq_dec : forall x y : A, {x = y} + {x <> y}.
Variable category : A -> option string.
Variable activities : list A.
Variables start_date end_date : Z.
Variable cfg : config.

Abbreviation csp := (schedule_csp A_eq_dec category activities start_date end_date cfg).
Abbreviation nd := (end_date - start_date + 1)%Z.
Abbreviation m := (get_or (get_max_per_day cfg) 3).
Abbreviation gen_out := (generate_schedule A_eq_dec category activities
                       start_date end_date cfg).

(** Each entry of a produced schedule is the block of the solution made
    of one day's variables, in slot order. *)
Lemma output_day_entry (out : @dict (@pyval A)) (k : string) (v : @pyval A) :
  gen_out = Done out -> out <> no_solution -> In (k, v) out ->
  exists r d blk,
    first_solution csp = Some r /\ (0 <= d < nd)%Z /\ (0 < m)%Z /\
    k = day_label (d + 1) /\ v = PList (map snd blk) /\
    map fst blk = day_vars m d /\ (forall e, In e blk -> In e r).
Proof.
  intros Hg Hne Hin.
  destruct (generate_cases A_eq_dec category activities start_date end_date cfg)
    as [H|[r [blocks [Hfs [_ [Hm [Hr [HF H]]]]]]]];
    rewrite H in Hg; injection Hg as <-; [contradiction|].
  apply In_day_blocks_out in Hin. destruct Hin as [d [blk [Hc [-> ->]]]].
  exists r, d, blk. split; [exact Hfs|]. split.
  { apply In_py_range. apply (in_combine_l _ _ _ _ Hc). }
  split; [exact Hm|]. split; [reflexivity|]. split; [reflexivity|]. split.
  - exact (Forall2_In_combine _ _ _ _ _ HF Hc).
  - intros e He. rewrite Hr. apply in_concat. exists blk. split; [|exact He].
    apply (in_combine_r _ _ _ _ Hc).
Qed.

(** The [j]-th activity of a day of a produced schedule is the value of
    the slot [j + 1] of that day in the solution. *)
Lemma output_day_nth (r : @assignment A) (d : Z) (blk : @assignment A)
    (j : nat) :
  first_solution csp = Some r -> (0 <= d < nd)%Z ->
  map fst blk = day_vars m d -> (forall e, In e blk -> In e r) ->
  nth_error (map snd blk) j = dict_get (var_name (d + 1) (Z.of_nat j + 1)) r.
Proof.
  intros Hfs Hd Hb Hsub.
  destruct (first_solution_spec _ _ Hfs) as [Hkeys _].
  assert (Hlen : List.length blk = Z.to_nat m).
  { rewrite <- length_day_vars with (d := d), <- Hb, length_map. reflexivity. }
  destruct (Nat.lt_ge_cases j (Z.to_nat m)) as [Hj|Hj].
  - destruct (nth_error blk j) as [[v x]|] eqn:E.
    2:{ apply nth_error_None in E. lia. }
    assert (Hv : nth_error (map fst blk) j = Some v) by (rewrite nth_error_map, E; reflexivity).
    rewrite Hb, nth_error_day_vars in Hv by exact Hj. injection Hv as <-.
    rewrite nth_error_map, E. symmetry. apply In_dict_get.
    + rewrite Hkeys. apply make_variables_NoDup.
    + apply Hsub. apply nth_error_In with j. exact E.
  - rewrite (proj2 (nth_error_None _ _)) by (rewrite length_map; lia).
    symmetry. apply dict_get_notin. rewrite Hkeys. simpl variables.
    rewrite In_make_variables. intros [d' [s [Heq [_ Hs]]]].
    apply var_name_inj in Heq. destruct Heq as [_ Heq].
    assert (Hs' : Z.of_nat j = s) by lia. subst s.
    assert (Z.of_nat j < Z.of_nat (Z.to_nat m))%Z by (rewrite Z2Nat.id; lia).
    lia.
Qed.
End Output.

(** ** Properties of produced schedules *)

(** C3: in every schedule [generate_schedule] produces, no activity
    (compared by equality of the whole value) appears twice across all the
    days of the output. *)
Theorem schedule_no_duplicates {A : Type}
    (A_eq_dec : forall x y : A, {x = y} + {x <> y})
    (category : A -> option string) (activities : list A)
    (start_date end_date : Z) (cfg : config) (out : @dict (@pyval A)) :
  generate_schedule A_eq_dec category activities start_date end_date cfg =
  Done out ->
  NoDup (schedule_values out).
Proof.
  intros Hg.
  destruct (generate_cases A_eq_dec category activities start_date end_date cfg)
    as [H|[r [blocks [Hfs [_ [_ [Hr [HF H]]]]]]]];
    rewrite H in Hg; injection Hg as <-.
  - constructor.
  - rewrite schedule_values_blocks by exact (Forall2_length HF).
    rewrite <- Hr. apply NoDup_snd_fresh. intros pre v x post Hsplit.
    destruct (solution_steps A_eq_dec category activities start_date end_date
                cfg r pre v x post Hfs Hsplit) as [d [s [_ [_ [Hnot _]]]]].
    exact Hnot.
Qed.

Lemma schedule_no_duplicates_witness :
  gen [museum; lunch; park] 0 0 (mkConfig (Some 3%Z) (Some 2%Z)) =
  Done [("Day1", PList [museum; lunch; park])] /\
  NoDup (schedule_values [("Day1", PList [museum; lunch; park])]).
Proof.
  assert (H : gen [museum; lunch; park] 0 0 (mkConfig (Some 3%Z) (Some 2%Z)) =
              Done [("Day1", PList [museum; lunch; park])])
    by (vm_compute; reflexivity).
  split; [exact H|].
  exact (schedule_no_duplicates activity_eq_dec activity_category
           [museum; lunch; park] 0 0 (mkConfig (Some 3%Z) (Some 2%Z)) _ H).
Defined.

(** C4: in every schedule [generate_schedule] produces, an activity of
    category "food" standing at position [j] (0-based) of its day's list,
    that is in the per-day slot [j + 1], satisfies
    [food_after_slot <= j + 1] ([food_after_slot] defaulting to 1). *)
Theorem schedule_food_after_slot {A : Type}
    (A_eq_dec : forall x y : A, {x = y} + {x <> y})
    (category : A -> option string) (activities : list A)
    (start_date end_date : Z) (cfg : config) (out : @dict (@pyval A))
    (k : string) (l : list A) (j : nat) (x : A) :
  generate_schedule A_eq_dec category activities start_date end_date cfg =
  Done out ->
  In (k, PList l) out ->
  nth_error l j = Some x ->
  is_food category x = true ->
  (get_or (get_food_after_slot cfg) 1 <= Z.of_nat j + 1)%Z.
Proof.
  intros Hg Hin Hj Hfood.
  assert (Hne : out <> no_solution).
  { intros ->. apply no_solution_keys in Hin. destruct Hin as [_ [s Hs]].
    discriminate. }
  destruct (output_day_entry A_eq_dec category activities start_date end_date
              cfg out k (PList l) Hg Hne Hin)
    as [r [d [blk [Hfs [Hd [Hm [_ [Hl [Hb Hsub]]]]]]]]].
  injection Hl as ->.
  rewrite (output_day_nth A_eq_dec category activities start_date end_date cfg
             r d blk j Hfs Hd Hb Hsub) in Hj.
  apply dict_get_In in Hj. apply in_split in Hj. destruct Hj as [pre [post Hr]].
  destruct (solution_steps A_eq_dec category activities start_date end_date
              cfg r pre _ x post Hfs Hr) as [d' [s [Heq [_ [_ Hf]]]]].
  apply var_name_inj in Heq. destruct Heq as [_ Heq].
  specialize (Hf Hfood). lia.
Qed.

Lemma schedule_food_after_slot_witness :
  gen [museum; lunch; park] 0 0 (mkConfig (Some 3%Z) (Some 2%Z)) =
  Done [("Day1", PList [museum; lunch; park])] /\
  (get_or (Some 2%Z) 1 <= Z.of_nat 1 + 1)%Z.
Proof.
  assert (H : gen [museum; lunch; park] 0 0 (mkConfig (Some 3%Z) (Some 2%Z)) =
              Done [("Day1", PList [museum; lunch; park])])
    by (vm_compute; reflexivity).
  split; [exact H|].
  exact (schedule_food_after_slot activity_eq_dec activity_category
           [museum; lunch; park] 0 0 (mkConfig (Some 3%Z) (Some 2%Z)) _
           "Day1" [museum; lunch; park] 1 lunch H
           (or_introl eq_refl) eq_refl eq_refl).
Defined.

(** C5: [generate_schedule] always returns a result, which is either the
    no-solution dict or a complete schedule: one key per day of the range
    ([(end_date - start_date).days + 1] keys, in day order), each day a
    list of exactly [max_per_day] activities, and the activities are the
    values of a solution assigning every generated variable. *)
Theorem schedule_complete_or_no_solution {A : Type}
    (A_eq_dec : forall x y : A, {x = y} + {x <> y})
    (category : A -> option string) (activities : list A)
    (start_date end_date : Z) (cfg : config) :
  exists out,
    generate_schedule A_eq_dec category activities start_date end_date cfg =
    Done out /\
    (out = no_solution \/
     (map fst out =
        map (fun d => day_label (d + 1)) (py_range (end_date - start_date + 1)) /\
      List.length out = Z.to_nat (end_date - start_date + 1) /\
      (forall k v, In (k, v) out ->
         exists l, v = PList l /\
                   Z.of_nat (List.length l) = get_or (get_max_per_day cfg) 3) /\
      exists r,
        first_solution (schedule_csp A_eq_dec category activities start_date
                          end_date cfg) = Some r /\
        map fst r = variables (schedule_csp A_eq_dec category activities
                                 start_date end_date cfg) /\
        schedule_values out = map snd r)).
Proof.
  destruct (generate_cases A_eq_dec category activities start_date end_date cfg)
    as [H|[r [blocks [Hfs [_ [Hm [Hr [HF H]]]]]]]]; rewrite H;
    eexists; (split; [reflexivity|]); [left; reflexivity|right].
  assert (Hlen := Forall2_length HF).
  split; [apply map_fst_day_blocks_out; exact Hlen|].
  split; [rewrite length_day_blocks_out, length_py_range by exact Hlen; reflexivity|].
  split.
  - intros k v Hin. apply In_day_blocks_out in Hin.
    destruct Hin as [d [blk [Hc [_ ->]]]].
    assert (Hb := Forall2_In_combine _ _ _ _ _ HF Hc).
    eexists. split; [reflexivity|].
    rewrite length_map, <- (length_map fst), Hb, length_day_vars. lia.
  - exists r. split; [exact Hfs|]. split.
    + exact (proj1 (first_solution_spec _ _ Hfs)).
    + rewrite schedule_values_blocks by exact Hlen. rewrite Hr. reflexivity.
Qed.

(** C6: [generate_schedule] is a function of its inputs: its result is the
    rendering of the first valid candidate, in lexicographic order over the
    day-major, slot-minor list of variables with each domain in the order
    of [activities], or the no-solution dict when there is none. *)
Theorem generate_is_first_solution {A : Type}
    (A_eq_dec : forall x y : A, {x = y} + {x <> y})
    (category : A -> option string) (activities : list A)
    (start_date end_date : Z) (cfg : config) :
  variables (schedule_csp A_eq_dec category activities start_date end_date cfg) =
    flat_map (day_vars (get_or (get_max_per_day cfg) 3))
             (py_range (end_date - start_date + 1)) /\
  (forall v, In v (variables (schedule_csp A_eq_dec category activities
                                start_date end_date cfg)) ->
     dom_of (schedule_csp A_eq_dec category activities start_date end_date cfg)
       v = activities) /\
  generate_schedule A_eq_dec category activities start_date end_date cfg =
  match first_solution (schedule_csp A_eq_dec category activities start_date
                          end_date cfg) with
  | Some ((_ :: _) as r) =>
      bind (format_days r []) (fun final => Done (to_output final))
  | _ => Done no_solution
  end.
Proof.
  split; [apply make_variables_blocks|]. split.
  - apply schedule_dom_of.
  - apply generate_result.
Qed.

(** C7 (as amended): let [r] be the assignment dict that [csp.backtrack()]
    returns; its keys were inserted in day-major, slot-minor order.  In
    the schedule [generate_schedule] returns, the list under the day key
    of day [d] holds at position [j] the value of [Day{d+1}_Slot{j+1}] in
    [r], and has exactly [max_per_day] entries: the activities of a day
    are in ascending slot order.  This order comes from the insertion
    order of [r]; the formatting loop does not sort. *)
Theorem schedule_days_in_slot_order {A : Type}
    (A_eq_dec : forall x y : A, {x = y} + {x <> y})
    (category : A -> option string) (activities : list A)
    (start_date end_date : Z) (cfg : config) (out : @dict (@pyval A)) :
  generate_schedule A_eq_dec category activities start_date end_date cfg =
  Done out ->
  out <> no_solution ->
  exists r,
    backtrack (schedule_csp A_eq_dec category activities start_date end_date cfg)
      (S (List.length (variables (schedule_csp A_eq_dec category activities
                                    start_date end_date cfg)))) [] =
      Done (Some r, r) /\
    first_solution (schedule_csp A_eq_dec category activities start_date
                      end_date cfg) = Some r /\
    map fst r = variables (schedule_csp A_eq_dec category activities
                             start_date end_date cfg) /\
    forall k v, In (k, v) out ->
      exists d l, (0 <= d < end_date - start_date + 1)%Z /\
        k = day_label (d + 1) /\ v = PList l /\
        Z.of_nat (List.length l) = get_or (get_max_per_day cfg) 3 /\
        forall j, nth_error l j = dict_get (var_name (d + 1) (Z.of_nat j + 1)) r.
Proof.
  intros Hg Hne.
  destruct (generate_cases A_eq_dec category activities start_date end_date cfg)
    as [H|[r [blocks [Hfs _]]]]; [rewrite H in Hg; injection Hg as <-; contradiction|].
  exists r. split.
  { rewrite (schedule_backtrack A_eq_dec category activities start_date end_date
               cfg) by lia.
    rewrite Hfs. reflexivity. }
  split; [exact Hfs|]. split; [exact (proj1 (first_solution_spec _ _ Hfs))|].
  intros k v Hin.
  destruct (output_day_entry A_eq_dec category activities start_date end_date
              cfg out k v Hg Hne Hin)
    as [r' [d [blk [Hfs' [Hd [Hm [-> [-> [Hb Hsub]]]]]]]]].
  rewrite Hfs in Hfs'. injection Hfs' as <-.
  exists d, (map snd blk). split; [exact Hd|]. split; [reflexivity|].
  split; [reflexivity|]. split.
  - rewrite length_map, <- (length_map fst), Hb, length_day_vars. lia.
  - intros j. exact (output_day_nth A_eq_dec category activities start_date
                       end_date cfg r d blk j Hfs Hd Hb Hsub).
Qed.

Lemma schedule_days_in_slot_order_witness :
  gen [museum; lunch; park] 0 0 (mkConfig (Some 3%Z) (Some 2%Z)) =
  Done [("Day1", PList [museum; lunch; park])] /\
  [("Day1", PList [museum; lunch; park])] <> no_solution /\
  exists r,
    backtrack (schedule_csp activity_eq_dec activity_category
                 [museum; lunch; park] 0 0 (mkConfig (Some 3%Z) (Some 2%Z)))
      (S (List.length (variables (schedule_csp activity_eq_dec activity_category
                 [museum; lunch; park] 0 0 (mkConfig (Some 3%Z) (Some 2%Z)))))) [] =
      Done (Some r, r) /\
    first_solution (schedule_csp activity_eq_dec activity_category
                      [museum; lunch; park] 0 0
                      (mkConfig (Some 3%Z) (Some 2%Z))) = Some r /\
    map fst r = variables (schedule_csp activity_eq_dec activity_category
                             [museum; lunch; park] 0 0
                             (mkConfig (Some 3%Z) (Some 2%Z))) /\
    forall k v, In (k, v) [("Day1", PList [museum; lunch; park])] ->
      exists d l, (0 <= d < 0 - 0 + 1)%Z /\
        k = day_label (d + 1) /\ v = PList l /\
        Z.of_nat (List.length l) = get_or (Some 3%Z) 3 /\
        forall j, nth_error l j = dict_get (var_name (d + 1) (Z.of_nat j + 1)) r.
Proof.
  assert (H : gen [museum; lunch; park] 0 0 (mkConfig (Some 3%Z) (Some 2%Z)) =
              Done [("Day1", PList [museum; lunch; park])])
    by (vm_compute; reflexivity).
  assert (Hne : [("Day1", PList [museum; lunch; park])] <> no_solution)
    by discriminate.
  split; [exact H|]. split; [exact Hne|].
  exact (schedule_days_in_slot_order activity_eq_dec activity_category
           [museum; lunch; park] 0 0 (mkConfig (Some 3%Z) (Some 2%Z)) _ H Hne).
Defined.

(** C7 refuted: the formatting loop relies on the insertion order of the
    assignment.  Two assignments that map every variable to the same
    activity but were filled in a different order are formatted with the
    day's activities in a different order; the slot order is not
    recovered. *)
Lemma reordered_mapping_breaks_slot_order :
  (forall k, dict_get k [("Day1_Slot1", museum); ("Day1_Slot2", park)] =
             dict_get k [("Day1_Slot2", park); ("Day1_Slot1", museum)]) /\
  format_days [("Day1_Slot1", museum); ("Day1_Slot2", park)] [] =
    Done [("Day1", [museum; park])] /\
  format_days [("Day1_Slot2", park); ("Day1_Slot1", museum)] [] =
    Done [("Day1", [park; museum])].
Proof.
  split; [|split; vm_compute; reflexivity].
  intros k. cbn [dict_get].
  destruct (String.eqb k "Day1_Slot1") eqn:E1;
    destruct (String.eqb k "Day1_Slot2") eqn:E2; try reflexivity.
  apply String.eqb_eq in E1, E2. rewrite E1 in E2. discriminate.
Qed.

(** ** No solution and termination *)

Lemma find_forallb_none {T : Type} (p : T -> bool) (l : list T) :
  forallb (fun x => negb (p x)) l = true -> find p l = None.
Proof.
  induction l as [|x l IH]; intros H; [reflexivity|].
  simpl in H. apply andb_prop in H. destruct H as [Hx Hl].
  simpl. destruct (p x); [discriminate|]. apply IH. exact Hl.
Qed.

(** C8: when the exhaustive search finds no complete assignment (no
    candidate passes the constraints), [generate_schedule] returns the
    no-solution dict as an ordinary value: no exception is raised, the
    dict is not empty, and it is told apart from every schedule the
    program can produce, none of which has a "message" key. *)
Theorem no_solution_is_data {A : Type}
    (A_eq_dec : forall x y : A, {x = y} + {x <> y})
    (category : A -> option string) (activities : list A)
    (start_date end_date : Z) (cfg : config) :
  forallb (fun vals =>
             negb (valid_seq (schedule_csp A_eq_dec category activities
                                start_date end_date cfg) []
                     (variables (schedule_csp A_eq_dec category activities
                                   start_date end_date cfg)) vals))
          (candidates (schedule_csp A_eq_dec category activities start_date
                         end_date cfg)
             (variables (schedule_csp A_eq_dec category activities start_date
                           end_date cfg))) = true ->
  generate_schedule A_eq_dec category activities start_date end_date cfg =
  Done no_solution /\
  no_solution (A:=A) <> [] /\
  (forall activities' start_date' end_date' cfg' out,
     generate_schedule A_eq_dec category activities' start_date' end_date'
       cfg' = Done out ->
     out = no_solution \/ ~ In "message" (map fst out)).
Proof.
  intros Hall. split; [|split].
  - rewrite generate_result. unfold first_solution.
    rewrite (find_forallb_none _ _ Hall). reflexivity.
  - discriminate.
  - intros acts sd ed c out Hg.
    destruct (generate_cases A_eq_dec category acts sd ed c)
      as [H|[r [blocks [_ [_ [_ [_ [HF H]]]]]]]];
      rewrite H in Hg; injection Hg as <-; [left; reflexivity|right].
    rewrite map_fst_day_blocks_out by exact (Forall2_length HF).
    rewrite in_map_iff. intros [d [Hd _]]. exact (day_label_not_message _ Hd).
Qed.

Lemma no_solution_is_data_witness :
  forallb (fun vals =>
             negb (valid_seq (schedule_csp activity_eq_dec activity_category
                                [museum; lunch; park] 0 1 (mkConfig (Some 3%Z) None)) []
                     (variables (schedule_csp activity_eq_dec activity_category
                                   [museum; lunch; park] 0 1
                                   (mkConfig (Some 3%Z) None))) vals))
          (candidates (schedule_csp activity_eq_dec activity_category
                         [museum; lunch; park] 0 1 (mkConfig (Some 3%Z) None))
             (variables (schedule_csp activity_eq_dec activity_category
                           [museum; lunch; park] 0 1
                           (mkConfig (Some 3%Z) None)))) = true /\
  gen [museum; lunch; park] 0 1 (mkConfig (Some 3%Z) None) = Done no_solution /\
  no_solution (A:=activity) <> [] /\
  (forall activities' start_date' end_date' cfg' out,
     gen activities' start_date' end_date' cfg' = Done out ->
     out = no_solution \/ ~ In "message" (map fst out)).
Proof.
  assert (H : forallb (fun vals =>
             negb (valid_seq (schedule_csp activity_eq_dec activity_category
                                [museum; lunch; park] 0 1 (mkConfig (Some 3%Z) None)) []
                     (variables (schedule_csp activity_eq_dec activity_category
                                   [museum; lunch; park] 0 1
                                   (mkConfig (Some 3%Z) None))) vals))
          (candidates (schedule_csp activity_eq_dec activity_category
                         [museum; lunch; park] 0 1 (mkConfig (Some 3%Z) None))
             (variables (schedule_csp activity_eq_dec activity_category
                           [museum; lunch; park] 0 1
                           (mkConfig (Some 3%Z) None)))) = true)
    by (vm_compute; reflexivity).
  split; [exact H|].
  exact (no_solution_is_data activity_eq_dec activity_category
           [museum; lunch; park] 0 1 (mkConfig (Some 3%Z) None) H).
Defined.

(** C9: the search terminates.  Given a recursion budget larger than the
    number of variables, [backtrack] returns without raising and without
    running out of budget, with the first valid candidate (a complete
    assignment) or with nothing once every candidate has been rejected;
    the candidates number [|activities| ^ |variables|]. *)
Theorem backtrack_terminates {A : Type}
    (A_eq_dec : forall x y : A, {x = y} + {x <> y})
    (category : A -> option string) (activities : list A)
    (start_date end_date : Z) (cfg : config) (fuel : nat) :
  (List.length (variables (schedule_csp A_eq_dec category activities
                             start_date end_date cfg)) < fuel)%nat ->
  backtrack (schedule_csp A_eq_dec category activities start_date end_date cfg)
    fuel [] =
  Done (match first_solution (schedule_csp A_eq_dec category activities
                                start_date end_date cfg) with
        | Some r => (Some r, r)
        | None => (None, [])
        end) /\
  List.length (candidates (schedule_csp A_eq_dec category activities
                             start_date end_date cfg)
                 (variables (schedule_csp A_eq_dec category activities
                               start_date end_date cfg))) =
  Nat.pow (List.length activities)
    (List.length (variables (schedule_csp A_eq_dec category activities
                               start_date end_date cfg))).
Proof.
  intros Hf. split.
  - apply schedule_backtrack. exact Hf.
  - apply candidates_length. intros v Hv. apply schedule_dom_of. exact Hv.
Qed.

Lemma backtrack_terminates_witness :
  (List.length (variables (schedule_csp activity_eq_dec activity_category
                             [museum; lunch; park] 0 0
                             (mkConfig (Some 3%Z) (Some 2%Z)))) < 4)%nat /\
  backtrack (schedule_csp activity_eq_dec activity_category
               [museum; lunch; park] 0 0 (mkConfig (Some 3%Z) (Some 2%Z))) 4 [] =
  Done (match first_solution (schedule_csp activity_eq_dec activity_category
                                [museum; lunch; park] 0 0
                                (mkConfig (Some 3%Z) (Some 2%Z))) with
        | Some r => (Some r, r)
        | None => (None, [])
        end) /\
  List.length (candidates (schedule_csp activity_eq_dec activity_category
                             [museum; lunch; park] 0 0
                             (mkConfig (Some 3%Z) (Some 2%Z)))
                 (variables (schedule_csp activity_eq_dec activity_category
                               [museum; lunch; park] 0 0
                               (mkConfig (Some 3%Z) (Some 2%Z))))) =
  Nat.pow (List.length [museum; lunch; park])
    (List.length (variables (schedule_csp activity_eq_dec activity_category
                               [museum; lunch; park] 0 0
                               (mkConfig (Some 3%Z) (Some 2%Z))))).
Proof.
  assert (H : (List.length (variables (schedule_csp activity_eq_dec
                 activity_category [museum; lunch; park] 0 0
                 (mkConfig (Some 3%Z) (Some 2%Z)))) < 4)%nat)
    by (apply Nat.ltb_lt; vm_compute; reflexivity).
  split; [exact H|].
  exact (backtrack_terminates activity_eq_dec activity_category
           [museum; lunch; park] 0 0 (mkConfig (Some 3%Z) (Some 2%Z)) 4 H).
Defined.

(** * Further properties of the code *)

(** ** [CSP.backtrack] on any CSP *)

Lemma NoDup_fst_fresh {T U : Type} (r : list (T * U)) :
  (forall pre v x post, r = pre ++ (v, x) :: post -> ~ In v (map fst pre)) ->
  NoDup (map fst r).
Proof.
  induction r as [|[v x] r IH] using rev_ind; intros H; [constructor|].
  rewrite map_app. simpl. apply NoDup_app.
  - apply IH. intros pre w y post E. apply (H pre w y (post ++ [(v, x)])).
    rewrite E, <- app_assoc. reflexivity.
  - constructor; [intros []|constructor].
  - intros a Ha Ha'. destruct Ha' as [E | []]. subst a.
    apply (H r v x []); auto.
Qed.

(** What a call of [backtrack] does to the shared assignment, whatever the
    CSP: a failed call leaves it as it was (each [del] undoes its
    assignment), and a successful call returns the assignment object itself,
    grown by entries each of which was an unassigned variable, given a value
    of its domain that passed [is_consistent] at the time. *)
Lemma backtrack_invariant {A : Type} (csp : @CSP A) :
  forall fuel asg res st,
  backtrack csp fuel asg = Done (res, st) ->
  match res with
  | None => st = asg
  | Some r =>
      r = st /\ List.length r = List.length (variables csp) /\
      exists ext, r = asg ++ ext /\
        forall pre v x post, ext = pre ++ (v, x) :: post ->
          In v (variables csp) /\ ~ In v (map fst (asg ++ pre)) /\
          (exists d, dict_get v (domains csp) = Some d /\ In x d) /\
          is_consistent csp (asg ++ pre) v x = Done true
  end.
Proof.
  induction fuel as [|fuel IH]; intros asg res st H; [discriminate|].
  cbn [backtrack] in H.
  destruct (Nat.eqb (List.length asg) (List.length (variables csp))) eqn:Elen.
  - injection H as <- <-. split; [reflexivity|].
    split; [apply Nat.eqb_eq; exact Elen|].
    exists []. split; [now rewrite app_nil_r|].
    intros pre v x post Hpre. destruct pre; discriminate.
  - destruct (py_index (filter (fun v => negb (dict_has v asg)) (variables csp)) 0)
      as [var| e |] eqn:Ev; cbn [bind] in H; try discriminate.
    assert (Hvar : In var (variables csp) /\ ~ In var (map fst asg)).
    { unfold py_index in Ev.
      destruct (nth_error _ 0) as [w|] eqn:En; [|discriminate].
      injection Ev as <-. apply nth_error_In, filter_In in En.
      destruct En as [Hin Hhas]. split; [exact Hin|].
      intros Hk. apply dict_has_In in Hk. rewrite Hk in Hhas. discriminate. }
    destruct Hvar as [Hvar Hfresh].
    destruct (dict_get var (domains csp)) as [d0|] eqn:Hd; cbn [bind] in H;
      [|discriminate].
    assert (Hinc : incl d0 d0) by (intros y Hy; exact Hy).
    revert res st H Hinc. generalize d0 at 1 2.
    intros dom. induction dom as [|x dom IHd]; intros res st H Hinc.
    + injection H as <- <-. reflexivity.
    + cbn -[backtrack dict_set dict_del is_consistent] in H.
      destruct (is_consistent csp asg var x) as [b| |] eqn:Ec; cbn [bind] in H;
        try discriminate.
      destruct b.
      * rewrite dict_set_new in H by exact Hfresh.
        destruct (backtrack csp fuel (asg ++ [(var, x)])) as [[res' st']| |]
          eqn:Eb; cbn [bind] in H; try discriminate.
        specialize (IH _ _ _ Eb). destruct res' as [r|].
        -- destruct IH as [Hst [Hlen [ext [Hr Hsteps]]]]. subst st' r.
           lazymatch type of H with
           | context [@truthy _ ?t] =>
               assert (Ht : @truthy A t = true) by (destruct asg; reflexivity);
               rewrite Ht in H
           end.
           injection H as <- <-.
           split; [reflexivity|]. split; [exact Hlen|].
           exists ((var, x) :: ext). split; [now rewrite <- app_assoc|].
           intros pre v y post Hpre. destruct pre as [|p pre].
           ++ injection Hpre as <- <- _. rewrite app_nil_r.
              split; [exact Hvar|]. split; [exact Hfresh|]. split; [|exact Ec].
              exists d0. split; [exact Hd|]. apply Hinc. left. reflexivity.
           ++ injection Hpre as <- Hpre.
              destruct (Hsteps pre v y post Hpre) as [H1 [H2 [H3 H4]]].
              rewrite <- app_assoc in H2, H4. simpl in H2, H4.
              auto.
        -- subst st'. cbn [truthy] in H. rewrite dict_del_last in H by exact Hfresh.
           cbn [bind] in H. apply (IHd res st H).
           intros y Hy. apply Hinc. right. exact Hy.
      * apply (IHd res st H). intros y Hy. apply Hinc. right. exact Hy.
Qed.

(** X1: a call of [backtrack] that returns [None] leaves the shared
    assignment exactly as it found it: every tentative [self.assignment[var]
    = value] is undone by its [del] before the next value is tried. *)
Theorem backtrack_failure_restores {A : Type} (csp : @CSP A) (fuel : nat)
    (asg st : @assignment A) :
  backtrack csp fuel asg = Done (None, st) -> st = asg.
Proof.
  intros H. exact (backtrack_invariant csp fuel asg None st H).
Qed.

Lemma backtrack_failure_restores_witness :
  backtrack clash_csp 3 [] = Done (None, []) /\ @nil (string * nat) = [].
Proof.
  assert (H : backtrack clash_csp 3 [] = Done (None, []))
    by (vm_compute; reflexivity).
  split; [exact H|].
  exact (backtrack_failure_restores clash_csp 3 [] [] H).
Defined.

(** X2: a call of [backtrack] that returns an assignment returns the shared
    assignment object itself, with as many entries as there are variables;
    it is the assignment it started from followed by new entries, each for
    a variable of the CSP not assigned before it, with a value taken from
    that variable's domain and accepted by [is_consistent] against the
    entries before it. *)
Theorem backtrack_success_extends {A : Type} (csp : @CSP A) (fuel : nat)
    (asg r st : @assignment A) :
  backtrack csp fuel asg = Done (Some r, st) ->
  r = st /\ List.length r = List.length (variables csp) /\
  exists ext, r = asg ++ ext /\
    forall pre v x post, ext = pre ++ (v, x) :: post ->
      In v (variables csp) /\ ~ In v (map fst (asg ++ pre)) /\
      (exists d, dict_get v (domains csp) = Some d /\ In x d) /\
      is_consistent csp (asg ++ pre) v x = Done true.
Proof.
  intros H. exact (backtrack_invariant csp fuel asg (Some r) st H).
Qed.

Lemma backtrack_success_extends_witness :
  backtrack pair_csp 3 [] = Done (Some [("a", 1); ("b", 2)], [("a", 1); ("b", 2)]) /\
  [("a", 1); ("b", 2)] = [("a", 1); ("b", 2)] /\
  List.length [("a", 1); ("b", 2)] = List.length (variables pair_csp) /\
  exists ext, [("a", 1); ("b", 2)] = [] ++ ext /\
    forall pre v x post, ext = pre ++ (v, x) :: post ->
      In v (variables pair_csp) /\ ~ In v (map fst ([] ++ pre)) /\
      (exists d, dict_get v (domains pair_csp) = Some d /\ In x d) /\
      is_consistent pair_csp ([] ++ pre) v x = Done true.
Proof.
  assert (H : backtrack pair_csp 3 [] =
              Done (Some [("a", 1); ("b", 2)], [("a", 1); ("b", 2)]))
    by (vm_compute; reflexivity).
  split; [exact H|].
  exact (backtrack_success_extends pair_csp 3 [] _ _ H).
Defined.

(** X3: an assignment returned by a top-level [backtrack] call (from the
    empty assignment) is complete: the variables are pairwise distinct and
    each of them is assigned once, to a value of its domain.  So with a
    repeated variable, or a variable missing from [domains] or with an empty
    domain, [backtrack] never returns an assignment. *)
Theorem backtrack_solution_complete {A : Type} (csp : @CSP A) (fuel : nat)
    (r st : @assignment A) :
  backtrack csp fuel [] = Done (Some r, st) ->
  NoDup (variables csp) /\ NoDup (map fst r) /\
  forall v, In v (variables csp) ->
    exists d x, dict_get v (domains csp) = Some d /\ In x d /\
                dict_get v r = Some x.
Proof.
  intros H. apply backtrack_invariant in H.
  destruct H as [_ [Hlen [ext [Hr Hsteps]]]]. simpl in Hr. subst r.
  assert (Hnd : NoDup (map fst ext)).
  { apply NoDup_fst_fresh. intros pre v x post E.
    exact (proj1 (proj2 (Hsteps pre v x post E))). }
  assert (Hinc : incl (map fst ext) (variables csp)).
  { intros v Hv. apply in_map_iff in Hv. destruct Hv as [[w x] [Hw Hin]].
    simpl in Hw. subst w. apply in_split in Hin. destruct Hin as [pre [post E]].
    exact (proj1 (Hsteps pre v x post E)). }
  assert (Hle : (List.length (variables csp) <= List.length (map fst ext))%nat)
    by (rewrite length_map; lia).
  split; [exact (NoDup_incl_NoDup Hnd Hle Hinc)|]. split; [exact Hnd|].
  intros v Hv. apply (NoDup_length_incl Hnd Hle Hinc) in Hv.
  apply in_map_iff in Hv. destruct Hv as [[w x] [Hw Hin]]. simpl in Hw. subst w.
  assert (Hget : dict_get v ext = Some x) by (apply In_dict_get; assumption).
  apply in_split in Hin. destruct Hin as [pre [post E]].
  destruct (Hsteps pre v x post E) as [_ [_ [[d [Hd Hx]] _]]].
  exists d, x. auto.
Qed.

Lemma backtrack_solution_complete_witness :
  backtrack pair_csp 3 [] = Done (Some [("a", 1); ("b", 2)], [("a", 1); ("b", 2)]) /\
  NoDup (variables pair_csp) /\ NoDup (map fst [("a", 1); ("b", 2)]) /\
  forall v, In v (variables pair_csp) ->
    exists d x, dict_get v (domains pair_csp) = Some d /\ In x d /\
                dict_get v [("a", 1); ("b", 2)] = Some x.
Proof.
  assert (H : backtrack pair_csp 3 [] =
              Done (Some [("a", 1); ("b", 2)], [("a", 1); ("b", 2)]))
    by (vm_compute; reflexivity).
  split; [exact H|].
  exact (backtrack_solution_complete pair_csp 3 _ _ H).
Defined.

(** X4: for a CSP whose variables are distinct, whose domains cover every
    variable and whose constraints return a verdict on its variables,
    [backtrack] from an assignment of the first variables, given a
    recursion depth above the number of variables left, returns the first
    valid completion in lexicographic order (earlier variables varying
    slowest, values in domain order), or [None] with the assignment
    restored when no completion is valid. *)
Theorem backtrack_first_valid {A : Type} (csp : @CSP A)
    (vs : list string) (asg : @assignment A) (fuel : nat) :
  NoDup (variables csp) ->
  (forall v, In v (variables csp) -> dict_get v (domains csp) <> None) ->
  (forall asg' v x, In v (variables csp) ->
     exists b, is_consistent csp asg' v x = Done b) ->
  map fst asg ++ vs = variables csp ->
  (List.length vs < fuel)%nat ->
  backtrack csp fuel asg =
  Done (match find (valid_seq csp asg vs) (candidates csp vs) with
        | Some vals => (Some (asg ++ combine vs vals), asg ++ combine vs vals)
        | None => (None, asg)
        end).
Proof.
  intros Hnd Hdom Htot Hvars Hf.
  exact (backtrack_find csp Hnd Hdom Htot vs asg fuel Hvars Hf).
Qed.

Lemma backtrack_first_valid_witness :
  NoDup (variables pair_csp) /\
  (forall v, In v (variables pair_csp) -> dict_get v (domains pair_csp) <> None) /\
  (forall asg' v x, In v (variables pair_csp) ->
     exists b, is_consistent pair_csp asg' v x = Done b) /\
  map fst [("a", 2)] ++ ["b"] = variables pair_csp /\
  (List.length ["b"] < 2)%nat /\
  backtrack pair_csp 2 [("a", 2)] =
  Done (match find (valid_seq pair_csp [("a", 2)] ["b"]) (candidates pair_csp ["b"]) with
        | Some vals => (Some ([("a", 2)] ++ combine ["b"] vals),
                        [("a", 2)] ++ combine ["b"] vals)
        | None => (None, [("a", 2)])
        end).
Proof.
  assert (H1 : NoDup (variables pair_csp))
    by (simpl; repeat constructor; simpl; intuition discriminate).
  assert (H2 : forall v, In v (variables pair_csp) ->
               dict_get v (domains pair_csp) <> None)
    by (simpl; intros v [<-|[<-|[]]]; simpl; discriminate).
  assert (H3 : forall asg' v x, In v (variables pair_csp) ->
               exists b, is_consistent pair_csp asg' v x = Done b)
    by (intros asg' v x _; unfold is_consistent, pair_csp; cbn [constraints check_all no_duplicate bind];
        match goal with |- exists b, (if ?c then _ else _) = _ => destruct c end;
        eexists; reflexivity).
  assert (H4 : map fst [("a", 2)] ++ ["b"] = variables pair_csp) by reflexivity.
  assert (H5 : (List.length ["b"] < 2)%nat) by (simpl; lia).
  split; [exact H1|]. split; [exact H2|]. split; [exact H3|].
  split; [exact H4|]. split; [exact H5|].
  exact (backtrack_first_valid pair_csp ["b"] [("a", 2)] 2 H1 H2 H3 H4 H5).
Defined.

(** ** The formatting loop on any assignment *)

Lemma py_split_cons (c : ascii) (s : string) :
  exists w ws, py_split c s = w :: ws.
Proof.
  induction s as [|a s IH]; simpl; [eexists; eexists; reflexivity|].
  destruct IH as [w [ws ->]].
  destruct (Ascii.eqb a c); eexists; eexists; reflexivity.
Qed.

Lemma py_index_day_key (v : string) :
  py_index (py_split "_" v) 0 = Done (day_key v).
Proof.
  unfold day_key. destruct (py_split_cons "_" v) as [w [ws ->]]. reflexivity.
Qed.

Section DictSet.
Context {V : Type}.

Lemma dict_get_none (k : string) (d : @dict V) :
  dict_get k d = None <-> dict_has k d = false.
Proof.
  unfold dict_has. induction d as [|[k' w] d IH]; simpl; [tauto|].
  destruct (String.eqb k k'); simpl; [split; discriminate|exact IH].
Qed.

Lemma dict_get_upd (k K : string) (v : V) (d : @dict V) :
  dict_get K (map (fun kv => if String.eqb k (fst kv) then (k, v) else kv) d) =
  if String.eqb K k then (if dict_has k d then Some v else None)
  else dict_get K d.
Proof.
  unfold dict_has. induction d as [|[k' w] d IH]; simpl.
  - destruct (String.eqb K k); reflexivity.
  - destruct (String.eqb k k') eqn:E1; simpl.
    + apply String.eqb_eq in E1. subst k'. rewrite IH.
      destruct (String.eqb K k); reflexivity.
    + rewrite IH. destruct (String.eqb K k) eqn:E2, (String.eqb K k') eqn:E3;
        try reflexivity.
      apply String.eqb_eq in E2, E3. subst. rewrite String.eqb_refl in E1.
      discriminate.
Qed.

Lemma dict_get_app_new (k K : string) (v : V) (d : @dict V) :
  ~ In k (map fst d) ->
  dict_get K (d ++ [(k, v)]) = if String.eqb K k then Some v else dict_get K d.
Proof.
  induction d as [|[k' w] d IH]; simpl; intros H.
  - destruct (String.eqb K k); reflexivity.
  - destruct (String.eqb K k') eqn:E1.
    + destruct (String.eqb K k) eqn:E2; [|reflexivity].
      apply String.eqb_eq in E1, E2. subst. tauto.
    + apply IH. tauto.
Qed.

Lemma dict_get_set (k K : string) (v : V) (d : @dict V) :
  dict_get K (dict_set k v d) =
  if String.eqb K k then Some v else dict_get K d.
Proof.
  unfold dict_set. destruct (dict_has k d) eqn:Eh.
  - rewrite dict_get_upd, Eh. reflexivity.
  - apply dict_get_app_new. intros Hin. apply dict_has_In in Hin.
    rewrite Hin in Eh. discriminate.
Qed.

Lemma keys_upd (k : string) (v : V) (d : @dict V) :
  map fst (map (fun kv => if String.eqb k (fst kv) then (k, v) else kv) d) =
  map fst d.
Proof.
  induction d as [|[k' w] d IH]; simpl; [reflexivity|].
  destruct (String.eqb k k') eqn:E; simpl; rewrite IH; [|reflexivity].
  apply String.eqb_eq in E. subst. reflexivity.
Qed.

Lemma keys_set (k : string) (v : V) (d : @dict V) :
  map fst (dict_set k v d) =
  if dict_has k d then map fst d else map fst d ++ [k].
Proof.
  unfold dict_set. destruct (dict_has k d).
  - apply keys_upd.
  - rewrite map_app. reflexivity.
Qed.
End DictSet.

Section FormatAny.
Context {A : Type}.

(** One step of the formatting loop appends the activity to the list of
    its day key, creating that list if needed. *)
Lemma format_step_spec (final : @dict (list A)) (v : string) (x : A) :
  NoDup (map fst final) ->
  exists final', format_step final (v, x) = Done final' /\
    NoDup (map fst final') /\
    forall K, dict_get K final' =
      if String.eqb K (day_key v)
      then Some (match dict_get (day_key v) final with
                 | Some l => l
                 | None => []
                 end ++ [x])
      else dict_get K final.
Proof.
  intros Hnd. unfold format_step. rewrite py_index_day_key. cbn [bind].
  destruct (dict_has (day_key v) final) eqn:Eh.
  - destruct (dict_get (day_key v) final) as [l|] eqn:Eg;
      [|apply dict_get_none in Eg; rewrite Eg in Eh; discriminate].
    eexists. split; [reflexivity|]. split.
    + rewrite keys_set, Eh. exact Hnd.
    + intros K. rewrite dict_get_set. reflexivity.
  - assert (Hnot : ~ In (day_key v) (map fst final)).
    { intros Hin. apply dict_has_In in Hin. rewrite Hin in Eh. discriminate. }
    assert (Eg : dict_get (day_key v) final = None) by (apply dict_get_none; exact Eh).
    rewrite (dict_set_new _ _ _ Hnot), (dict_get_last _ _ _ Hnot).
    eexists. split; [reflexivity|]. split.
    + rewrite keys_set, dict_has_last, map_app. simpl.
      apply NoDup_app; [exact Hnd|repeat constructor; intros []|].
      intros K HK [<-|[]]. contradiction.
    + intros K. rewrite dict_get_set, Eg, (dict_get_app_new _ _ _ _ Hnot).
      destruct (String.eqb K (day_key v)); reflexivity.
Qed.

Lemma format_days_groups (r : @assignment A) :
  exists final, format_days r [] = Done final /\ NoDup (map fst final) /\
    forall K, dict_get K final =
      match map snd (filter (fun p => String.eqb (day_key (fst p)) K) r) with
      | [] => None
      | l => Some l
      end.
Proof.
  induction r as [|[v x] r IH] using rev_ind.
  - exists []. split; [reflexivity|]. split; [constructor|]. reflexivity.
  - destruct IH as [final [Hf [Hnd Hget]]].
    destruct (format_step_spec final v x Hnd) as [final' [Hs [Hnd' Hget']]].
    exists final'. split.
    { rewrite format_days_app, Hf. cbn [bind format_days]. rewrite Hs. reflexivity. }
    split; [exact Hnd'|]. intros K.
    rewrite Hget', filter_app, map_app. simpl fst.
    rewrite String.eqb_sym. destruct (String.eqb (day_key v) K) eqn:E.
    + apply String.eqb_eq in E. subst K. rewrite Hget. simpl.
      rewrite String.eqb_refl. simpl.
      destruct (map snd (filter _ r)); reflexivity.
    + simpl. rewrite E. simpl. rewrite app_nil_r. apply Hget.
Qed.
End FormatAny.

(** ** Layout of the variables and values of the candidates *)

Lemma nth_error_flat_map_const {T U : Type} (f : T -> list U) (k : nat) :
  forall (l : list T) (d s : nat),
  (forall t, In t l -> List.length (f t) = k) -> (s < k)%nat ->
  nth_error (flat_map f l) (d * k + s) =
  match nth_error l d with Some t => nth_error (f t) s | None => None end.
Proof.
  induction l as [|t l IH]; intros d s Hk Hs.
  - simpl. destruct (d * k + s)%nat; destruct d; reflexivity.
  - assert (Ht : List.length (f t) = k) by (apply Hk; left; reflexivity).
    simpl. destruct d as [|d].
    + simpl. apply nth_error_app1. lia.
    + rewrite nth_error_app2 by (simpl; lia).
      replace (S d * k + s - List.length (f t))%nat with (d * k + s)%nat
        by (simpl; lia).
      apply IH; auto. intros t' Ht'. apply Hk. right. exact Ht'.
Qed.

Lemma length_flat_map_const {T U : Type} (f : T -> list U) (k : nat) :
  forall l : list T, (forall t, In t l -> List.length (f t) = k) ->
  List.length (flat_map f l) = (List.length l * k)%nat.
Proof.
  induction l as [|t l IH]; intros Hk; [reflexivity|].
  simpl. rewrite length_app, Hk by (left; reflexivity).
  rewrite IH by (intros t' Ht'; apply Hk; right; exact Ht'). reflexivity.
Qed.

Lemma length_make_variables (nd m : Z) :
  List.length (make_variables nd m) = (Z.to_nat nd * Z.to_nat m)%nat.
Proof.
  rewrite make_variables_blocks,
    (length_flat_map_const _ (Z.to_nat m)) by (intros; apply length_day_vars).
  rewrite length_py_range. reflexivity.
Qed.

Lemma nth_error_make_variables (nd m : Z) (d s : nat) :
  (d < Z.to_nat nd)%nat -> (s < Z.to_nat m)%nat ->
  nth_error (make_variables nd m) (d * Z.to_nat m + s) =
  Some (var_name (Z.of_nat d + 1) (Z.of_nat s + 1)).
Proof.
  intros Hd Hs. rewrite make_variables_blocks.
  rewrite (nth_error_flat_map_const _ (Z.to_nat m))
    by (auto; intros; apply length_day_vars).
  rewrite nth_error_py_range by exact Hd. apply nth_error_day_vars. exact Hs.
Qed.

Lemma candidates_values {A : Type} (csp : @CSP A) :
  forall vs vals, In vals (candidates csp vs) ->
  forall x, In x vals -> exists v, In v vs /\ In x (dom_of csp v).
Proof.
  induction vs as [|v vs IH]; simpl; intros vals Hin x Hx.
  - destruct Hin as [<-|[]]. destruct Hx.
  - apply in_flat_map in Hin. destruct Hin as [y [Hy Hin]].
    apply in_map_iff in Hin. destruct Hin as [ys [<- Hys]].
    destruct Hx as [<-|Hx].
    + exists v. auto.
    + destruct (IH ys Hys x Hx) as [w [Hw Hxw]]. exists w. auto.
Qed.

Lemma first_solution_values {A : Type} (csp : @CSP A) (r : @assignment A) :
  first_solution csp = Some r ->
  forall x, In x (map snd r) -> exists v, In v (variables csp) /\ In x (dom_of csp v).
Proof.
  unfold first_solution. intros H x Hx.
  destruct (find _ _) as [vals|] eqn:Hf; [|discriminate].
  injection H as <-. apply find_some in Hf. destruct Hf as [Hin _].
  apply in_map_iff in Hx. destruct Hx as [[v y] [Hy Hc]]. simpl in Hy. subst y.
  apply (candidates_values csp _ vals Hin). apply (in_combine_r _ _ _ _ Hc).
Qed.

Lemma map_snd_combine {T U : Type} (l : list T) (l' : list U) :
  List.length l = List.length l' -> map snd (combine l l') = l'.
Proof.
  revert l'. induction l as [|a l IH]; intros [|b l'] H; simpl in *;
    try discriminate; auto.
  f_equal. apply IH. lia.
Qed.

Lemma find_none_in {T : Type} (p : T -> bool) (l : list T) :
  (forall x, In x l -> p x = false) -> find p l = None.
Proof.
  induction l as [|x l IH]; simpl; intros H; [reflexivity|].
  rewrite H by (left; reflexivity). apply IH. intros y Hy. apply H. right. exact Hy.
Qed.

Lemma filter_first {T : Type} (f : T -> bool) (l : list T) (y : T) (t : list T) :
  filter f l = y :: t ->
  exists l1 l2, l = l1 ++ y :: l2 /\ (forall z, In z l1 -> f z = false) /\
                f y = true /\ filter f l2 = t.
Proof.
  induction l as [|z l IH]; simpl; intros H; [discriminate|].
  destruct (f z) eqn:E.
  - injection H as <- <-. exists [], l.
    split; [reflexivity|]. split; [intros ? []|]. auto.
  - destruct (IH H) as [l1 [l2 [-> [H1 [H2 H3]]]]].
    exists (z :: l1), l2. split; [reflexivity|]. split; [|auto].
    intros w [<-|Hw]; auto.
Qed.

(** ** The search when only duplicates are ruled out *)

(** When every variable has the same duplicate-free domain and a value is
    accepted exactly when it is not yet among the assigned values, the first
    valid completion takes the unused values in domain order. *)
Section Greedy.
Context {A : Type}.
Variable A_eq_dec : forall x y : A, {x = y} + {x <> y}.
Variable csp : @CSP A.
Variable dom : list A.
Variable V : list string.
Hypothesis dom_nodup : NoDup dom.
Hypothesis dom_V : forall v, In v V -> dom_of csp v = dom.
Hypothesis cons_V : forall asg v x, In v V -> In x dom ->
  consistent csp asg v x =
  negb (existsb (fun y => if A_eq_dec x y then true else false) (map snd asg)).

Lemma greedy_find :
  forall vs asg, incl vs V ->
  let unused := filter (fun y => negb (existsb
                  (fun z => if A_eq_dec y z then true else false) (map snd asg))) dom in
  (List.length vs <= List.length unused)%nat ->
  find (valid_seq csp asg vs) (candidates csp vs) =
  Some (firstn (List.length vs) unused).
Proof.
  induction vs as [|v vs IH]; intros asg Hincl unused Hlen; [reflexivity|].
  assert (Hv : In v V) by (apply Hincl; left; reflexivity).
  destruct unused as [|y0 t] eqn:Eu; [simpl in Hlen; lia|].
  destruct (filter_first _ _ _ _ Eu) as [l1 [l2 [Hdom [H1 [Hy0 Ht]]]]].
  cbn [candidates]. rewrite dom_V by exact Hv. rewrite Hdom, flat_map_app,
    find_app_split.
  rewrite find_none_in.
  2:{ intros c Hc. apply in_flat_map in Hc. destruct Hc as [z [Hz Hc]].
      apply in_map_iff in Hc. destruct Hc as [ys [<- _]].
      simpl. rewrite cons_V, H1 by (auto; rewrite Hdom; apply in_or_app; left; exact Hz).
      reflexivity. }
  cbn [flat_map]. rewrite find_app_split, find_map_opt.
  assert (Hc0 : consistent csp asg v y0 = true).
  { rewrite cons_V by (auto; rewrite Hdom; apply in_or_app; right; left; reflexivity).
    exact Hy0. }
  rewrite (find_ext_in (fun ys => valid_seq csp asg (v :: vs) (y0 :: ys))
             (valid_seq csp (asg ++ [(v, y0)]) vs))
    by (intros ys _; simpl; rewrite Hc0; reflexivity).
  assert (Hu : filter (fun y => negb (existsb
                 (fun z => if A_eq_dec y z then true else false)
                 (map snd (asg ++ [(v, y0)])))) dom = t).
  { assert (Hnd := dom_nodup). rewrite Hdom in Hnd.
    apply NoDup_remove_2 in Hnd.
    rewrite (filter_ext _ (fun y => negb (existsb
               (fun z => if A_eq_dec y z then true else false) (map snd asg))
               && negb (if A_eq_dec y y0 then true else false)))
      by (intros y; rewrite map_app, existsb_app; simpl;
          rewrite orb_false_r, negb_orb; reflexivity).
    rewrite Hdom, filter_app. cbn [filter].
    assert (Hl1 : forall l, (forall z, In z l -> negb (existsb
               (fun z' => if A_eq_dec z z' then true else false) (map snd asg))
               = false) ->
               filter (fun y => negb (existsb
               (fun z => if A_eq_dec y z then true else false) (map snd asg))
               && negb (if A_eq_dec y y0 then true else false)) l = []).
    { induction l as [|z l IHl]; intros Hz; [reflexivity|]. simpl.
      rewrite Hz by (left; reflexivity). apply IHl. intros w Hw. apply Hz.
      right. exact Hw. }
    rewrite Hl1 by exact H1. simpl.
    destruct (A_eq_dec y0 y0) as [_|]; [|congruence].
    rewrite andb_false_r. rewrite <- Ht. apply filter_ext_in.
    intros a Ha. destruct (A_eq_dec a y0) as [->|_].
    - exfalso. apply Hnd. apply in_or_app. right. exact Ha.
    - apply andb_true_r. }
  assert (Hincl' : incl vs V) by (intros w Hw; apply Hincl; right; exact Hw).
  specialize (IH (asg ++ [(v, y0)]) Hincl'). cbv zeta in IH. rewrite Hu in IH.
  rewrite IH by (simpl in Hlen; lia). reflexivity.
Qed.
End Greedy.

(** ** A repeated domain value changes nothing in the search *)

Lemma find_flat_map_dup {T U : Type} (p : U -> bool) (f : T -> list U)
    (l1 : list T) (x : T) (l2 l3 : list T) :
  find p (flat_map f (l1 ++ x :: l2 ++ x :: l3)) =
  find p (flat_map f (l1 ++ x :: l2 ++ l3)).
Proof.
  rewrite !flat_map_app, !find_app_split.
  destruct (find p (flat_map f l1)); [reflexivity|].
  cbn [flat_map]. rewrite !find_app_split.
  destruct (find p (f x)) eqn:Ex; [reflexivity|].
  rewrite !flat_map_app, !find_app_split.
  destruct (find p (flat_map f l2)); [reflexivity|].
  cbn [flat_map]. rewrite find_app_split, Ex. reflexivity.
Qed.

Lemma find_flat_map_ext {T U : Type} (p : U -> bool) (f g : T -> list U)
    (l : list T) :
  (forall t, In t l -> find p (f t) = find p (g t)) ->
  find p (flat_map f l) = find p (flat_map g l).
Proof.
  induction l as [|t l IH]; intros H; [reflexivity|].
  cbn [flat_map]. rewrite !find_app_split, H by (left; reflexivity).
  destruct (find p (g t)); [reflexivity|].
  apply IH. intros t' Ht'. apply H. right. exact Ht'.
Qed.

Lemma candidates_dup {A : Type} (csp1 csp2 : @CSP A) (l1 : list A) (x : A)
    (l2 l3 : list A) :
  forall vs asg,
  (forall v, In v vs -> dom_of csp1 v = l1 ++ x :: l2 ++ x :: l3 /\
                        dom_of csp2 v = l1 ++ x :: l2 ++ l3) ->
  find (valid_seq csp1 asg vs) (candidates csp1 vs) =
  find (valid_seq csp1 asg vs) (candidates csp2 vs).
Proof.
  induction vs as [|v vs IH]; intros asg Hd; [reflexivity|].
  destruct (Hd v (or_introl eq_refl)) as [H1 H2].
  cbn [candidates]. rewrite H1, H2, find_flat_map_dup.
  apply find_flat_map_ext. intros y _. rewrite !find_map_opt. f_equal.
  cbn [valid_seq]. destruct (consistent csp1 asg v y).
  - cbn [andb]. apply IH. intros w Hw. apply Hd. right. exact Hw.
  - rewrite !find_all_false by reflexivity. reflexivity.
Qed.

(** ** Domain values that no constraint accepts change nothing *)

Lemma find_flat_map_filter {T U : Type} (p : U -> bool) (q : T -> bool)
    (f : T -> list U) (l : list T) :
  (forall t, In t l -> q t = false -> find p (f t) = None) ->
  find p (flat_map f l) = find p (flat_map f (filter q l)).
Proof.
  induction l as [|t l IH]; intros H; [reflexivity|].
  cbn [flat_map filter]. destruct (q t) eqn:Eq.
  - cbn [flat_map]. rewrite !find_app_split.
    destruct (find p (f t)); [reflexivity|].
    apply IH. intros t' Ht'. apply H. right. exact Ht'.
  - rewrite find_app_split, H by (auto; left; reflexivity).
    apply IH. intros t' Ht'. apply H. right. exact Ht'.
Qed.

Lemma candidates_filter {A : Type} (csp1 csp2 : @CSP A) (q : A -> bool) :
  forall vs asg,
  (forall v, In v vs -> dom_of csp2 v = filter q (dom_of csp1 v)) ->
  (forall asg' v x, In v vs -> q x = false -> consistent csp1 asg' v x = false) ->
  find (valid_seq csp1 asg vs) (candidates csp1 vs) =
  find (valid_seq csp1 asg vs) (candidates csp2 vs).
Proof.
  induction vs as [|v vs IH]; intros asg Hd Hc; [reflexivity|].
  cbn [candidates]. rewrite (Hd v (or_introl eq_refl)).
  rewrite find_flat_map_filter with (q := q).
  - apply find_flat_map_ext. intros y _. rewrite !find_map_opt. f_equal.
    cbn [valid_seq]. destruct (consistent csp1 asg v y).
    + cbn [andb]. apply IH.
      * intros w Hw. apply Hd. right. exact Hw.
      * intros asg' w x Hw. apply Hc. right. exact Hw.
    + rewrite !find_all_false by reflexivity. reflexivity.
  - intros y _ Hq. rewrite find_map_opt, find_all_false; [reflexivity|].
    intros ys. cbn [valid_seq].
    rewrite (Hc asg v y (or_introl eq_refl) Hq). reflexivity.
Qed.

(** ** Variables, names and formatting *)

(** X5: the two nested loops of [generate_schedule] list the variables day
    by day and, within a day, slot by slot.  There are
    [num_days * max_per_day] of them, none at all when either count is not
    positive, and they are pairwise distinct; position [d * max_per_day + s]
    holds [Day{d+1}_Slot{s+1}]. *)
Theorem variables_layout (num_days max_per_day : Z) :
  List.length (make_variables num_days max_per_day) =
    (Z.to_nat num_days * Z.to_nat max_per_day)%nat /\
  ((num_days <= 0 \/ max_per_day <= 0)%Z ->
   make_variables num_days max_per_day = []) /\
  NoDup (make_variables num_days max_per_day) /\
  forall d s, (d < Z.to_nat num_days)%nat -> (s < Z.to_nat max_per_day)%nat ->
    nth_error (make_variables num_days max_per_day) (d * Z.to_nat max_per_day + s) =
      Some (var_name (Z.of_nat d + 1) (Z.of_nat s + 1)).
Proof.
  split; [apply length_make_variables|]. split; [apply make_variables_empty|].
  split; [apply make_variables_NoDup|].
  intros d s Hd Hs. apply nth_error_make_variables; assumption.
Qed.

Lemma variables_layout_witness :
  make_variables 3 0 = [] /\
  nth_error (make_variables 2 3) (1 * Z.to_nat 3 + 2) =
    Some (var_name (Z.of_nat 1 + 1) (Z.of_nat 2 + 1)).
Proof.
  split.
  - apply (proj1 (proj2 (variables_layout 3 0))). lia.
  - apply (proj2 (proj2 (proj2 (variables_layout 2 3)))); simpl; lia.
Defined.

(** X6: the variable names round-trip through the string parsing of the
    code, for every day and slot number: [food_after_slot] reads the slot
    number back from [Day{d}_Slot{s}] without raising and accepts a food
    activity exactly when [s >= food_after_slot] (any other activity
    always), and the formatting loop reads the day key [Day{d}] back. *)
Theorem variable_names_round_trip {A : Type} (category : A -> option string)
    (cfg : config) (asg : @assignment A) (d s : Z) (x : A) :
  food_after_slot category cfg asg (var_name d s) x =
    Done (if is_food category x
          then Z.geb s (get_or (get_food_after_slot cfg) 1) else true) /\
  py_index (py_split "_" (var_name d s)) 0 = Done (day_label d).
Proof.
  split; [apply food_after_slot_var|apply day_key_var_name].
Qed.

(** X7: the formatting loop of [generate_schedule] never raises, whatever
    the variable names and their order: it gives one entry per distinct
    day key [var.split("_")[0]], whose list holds the activities of the
    variables with that key in the order of the assignment. *)
Theorem format_groups_by_day {A : Type} (r : @assignment A) :
  exists final, format_days r [] = Done final /\ NoDup (map fst final) /\
    forall K, dict_get K final =
      match map snd (filter (fun p => String.eqb (day_key (fst p)) K) r) with
      | [] => None
      | l => Some l
      end.
Proof. exact (format_days_groups r). Qed.

(** ** What a produced schedule is made of *)

(** X8: every activity of a produced schedule is one of the given
    activities (each slot's domain is a copy of [activities]). *)
Theorem schedule_uses_given_activities {A : Type}
    (A_eq_dec : forall x y : A, {x = y} + {x <> y})
    (category : A -> option string) (activities : list A)
    (start_date end_date : Z) (cfg : config) (out : @dict (@pyval A)) (x : A) :
  generate_schedule A_eq_dec category activities start_date end_date cfg =
  Done out ->
  In x (schedule_values out) -> In x activities.
Proof.
  intros Hg Hx.
  destruct (generate_cases A_eq_dec category activities start_date end_date cfg)
    as [H|[r [blocks [Hfs [_ [_ [Hr [HF H]]]]]]]];
    rewrite H in Hg; injection Hg as <-; [destruct Hx|].
  rewrite schedule_values_blocks, <- Hr in Hx by exact (Forall2_length HF).
  destruct (first_solution_values _ r Hfs x Hx) as [v [Hv Hxv]].
  rewrite schedule_dom_of in Hxv by exact Hv. exact Hxv.
Qed.

Lemma schedule_uses_given_activities_witness :
  gen [museum; lunch; park] 0 0 (mkConfig (Some 3%Z) (Some 2%Z)) =
  Done [("Day1", PList [museum; lunch; park])] /\
  In lunch (schedule_values [("Day1", PList [museum; lunch; park])]) /\
  In lunch [museum; lunch; park].
Proof.
  assert (H : gen [museum; lunch; park] 0 0 (mkConfig (Some 3%Z) (Some 2%Z)) =
              Done [("Day1", PList [museum; lunch; park])])
    by (vm_compute; reflexivity).
  assert (Hx : In lunch (schedule_values [("Day1", PList [museum; lunch; park])]))
    by (simpl; auto).
  split; [exact H|]. split; [exact Hx|].
  exact (schedule_uses_given_activities activity_eq_dec activity_category
           [museum; lunch; park] 0 0 (mkConfig (Some 3%Z) (Some 2%Z)) _ lunch H Hx).
Defined.

(** X9: with fewer activities than slots ([num_days * max_per_day]), the
    no-duplicate constraint cannot be met and [generate_schedule] returns
    the no-solution dict. *)
Theorem too_few_activities_no_solution {A : Type}
    (A_eq_dec : forall x y : A, {x = y} + {x <> y})
    (category : A -> option string) (activities : list A)
    (start_date end_date : Z) (cfg : config) :
  (List.length activities <
   Z.to_nat (end_date - start_date + 1) * Z.to_nat (get_or (get_max_per_day cfg) 3))%nat ->
  generate_schedule A_eq_dec category activities start_date end_date cfg =
  Done no_solution.
Proof.
  intros Hlt.
  destruct (generate_cases A_eq_dec category activities start_date end_date cfg)
    as [H|[r [blocks [Hfs [_ [_ [Hr [HF H]]]]]]]]; [exact H|exfalso].
  assert (Hnd : NoDup (map snd r)).
  { apply NoDup_snd_fresh. intros pre v x post E.
    destruct (solution_steps A_eq_dec category activities start_date end_date
                cfg r pre v x post Hfs E) as [d [s [_ [_ [Hnot _]]]]].
    exact Hnot. }
  assert (Hinc : incl (map snd r) activities).
  { intros x Hx. destruct (first_solution_values _ r Hfs x Hx) as [v [Hv Hxv]].
    rewrite schedule_dom_of in Hxv by exact Hv. exact Hxv. }
  assert (Hle := NoDup_incl_length Hnd Hinc).
  destruct (first_solution_spec _ _ Hfs) as [Hkeys _].
  assert (Hlen := f_equal (@List.length string) Hkeys).
  simpl variables in Hlen. rewrite length_make_variables, length_map in Hlen.
  rewrite length_map in Hle. lia.
Qed.

Lemma too_few_activities_no_solution_witness :
  (List.length [museum; lunch; park] <
   Z.to_nat (1 - 0 + 1) * Z.to_nat (get_or (get_max_per_day (mkConfig None None)) 3))%nat /\
  gen [museum; lunch; park] 0 1 (mkConfig None None) = Done no_solution.
Proof.
  assert (H : (List.length [museum; lunch; park] <
   Z.to_nat (1 - 0 + 1) * Z.to_nat (get_or (get_max_per_day (mkConfig None None)) 3))%nat)
    by (simpl; lia).
  split; [exact H|].
  exact (too_few_activities_no_solution activity_eq_dec activity_category
           [museum; lunch; park] 0 1 (mkConfig None None) H).
Defined.

(** X10: when [food_after_slot] exceeds [max_per_day], no slot of a day can
    take a food activity.  The food activities then play no part: the
    result of [generate_schedule] is the one it gives for the same call
    with the food activities removed from the input (so they never cause
    the no-solution result), and a produced schedule contains none of
    them. *)
Theorem food_left_out_when_too_late {A : Type}
    (A_eq_dec : forall x y : A, {x = y} + {x <> y})
    (category : A -> option string) (activities : list A)
    (start_date end_date : Z) (cfg : config) :
  (get_or (get_max_per_day cfg) 3 < get_or (get_food_after_slot cfg) 1)%Z ->
  generate_schedule A_eq_dec category activities start_date end_date cfg =
  generate_schedule A_eq_dec category
    (filter (fun x => negb (is_food category x)) activities)
    start_date end_date cfg /\
  forall out x,
    generate_schedule A_eq_dec category activities start_date end_date cfg =
    Done out ->
    In x (schedule_values out) -> is_food category x = false.
Proof.
  intros Hlt. split.
  - rewrite !generate_result.
    set (csp1 := schedule_csp A_eq_dec category activities start_date end_date cfg).
    set (csp2 := schedule_csp A_eq_dec category
                   (filter (fun x => negb (is_food category x)) activities)
                   start_date end_date cfg).
    assert (Hc : forall asg v y, consistent csp1 asg v y = consistent csp2 asg v y)
      by reflexivity.
    replace (first_solution csp1) with (first_solution csp2); [reflexivity|].
    unfold first_solution. change (variables csp2) with (variables csp1).
    rewrite (candidates_filter csp1 csp2 (fun x => negb (is_food category x))
               (variables csp1) []).
    + f_equal. apply find_ext_in. intros vals _. apply valid_seq_ext.
      intros asg v y _. symmetry. apply Hc.
    + intros v Hv. unfold csp1, csp2 in *. rewrite !schedule_dom_of by exact Hv.
      reflexivity.
    + intros asg v y Hv Hq. apply negb_false_iff in Hq.
      simpl variables in Hv. apply In_make_variables in Hv.
      destruct Hv as [d [s [-> [_ Hs]]]].
      unfold consistent, csp1. rewrite schedule_is_consistent, Hq.
      replace (Z.geb (s + 1) (get_or (get_food_after_slot cfg) 1)) with false
        by (symmetry; rewrite Z.geb_leb; apply Z.leb_gt; lia).
      apply andb_false_r.
  - intros out x Hg Hx.
    destruct (generate_cases A_eq_dec category activities start_date end_date cfg)
      as [H|[r [blocks [Hfs [_ [_ [Hr [HF H]]]]]]]];
      rewrite H in Hg; injection Hg as <-; [destruct Hx|].
    rewrite schedule_values_blocks, <- Hr in Hx by exact (Forall2_length HF).
    apply in_map_iff in Hx. destruct Hx as [[v y] [Hy Hin]]. simpl in Hy. subst y.
    apply in_split in Hin. destruct Hin as [pre [post E]].
    destruct (solution_steps A_eq_dec category activities start_date end_date
                cfg r pre v x post Hfs E) as [d [s [_ [Hs [_ Hf]]]]].
    destruct (is_food category x); [|reflexivity].
    specialize (Hf eq_refl). lia.
Qed.

Lemma food_left_out_when_too_late_witness :
  (get_or (get_max_per_day (mkConfig (Some 2%Z) (Some 3%Z))) 3 <
   get_or (get_food_after_slot (mkConfig (Some 2%Z) (Some 3%Z))) 1)%Z /\
  gen [lunch; museum; park] 0 0 (mkConfig (Some 2%Z) (Some 3%Z)) =
  gen (filter (fun x => negb (is_food activity_category x)) [lunch; museum; park])
    0 0 (mkConfig (Some 2%Z) (Some 3%Z)) /\
  forall out x,
    gen [lunch; museum; park] 0 0 (mkConfig (Some 2%Z) (Some 3%Z)) = Done out ->
    In x (schedule_values out) -> is_food activity_category x = false.
Proof.
  assert (H1 : (get_or (get_max_per_day (mkConfig (Some 2%Z) (Some 3%Z))) 3 <
   get_or (get_food_after_slot (mkConfig (Some 2%Z) (Some 3%Z))) 1)%Z)
    by (simpl; lia).
  split; [exact H1|].
  exact (food_left_out_when_too_late activity_eq_dec activity_category
           [lunch; museum; park] 0 0 (mkConfig (Some 2%Z) (Some 3%Z)) H1).
Defined.

(** X11: when every food activity may go in the first slot
    ([food_after_slot <= 1]), the activities are distinct and there are at
    least as many of them as slots, [generate_schedule] fills the slots,
    day by day and slot by slot, with the first [num_days * max_per_day]
    activities in their given order. *)
Theorem schedule_takes_activities_in_order {A : Type}
    (A_eq_dec : forall x y : A, {x = y} + {x <> y})
    (category : A -> option string) (activities : list A)
    (start_date end_date : Z) (cfg : config) :
  (forall x, In x activities -> is_food category x = true ->
   (get_or (get_food_after_slot cfg) 1 <= 1)%Z) ->
  NoDup activities ->
  (0 < end_date - start_date + 1)%Z ->
  (0 < get_or (get_max_per_day cfg) 3)%Z ->
  (Z.to_nat (end_date - start_date + 1) * Z.to_nat (get_or (get_max_per_day cfg) 3)
   <= List.length activities)%nat ->
  exists out,
    generate_schedule A_eq_dec category activities start_date end_date cfg =
    Done out /\ out <> no_solution /\
    schedule_values out =
    firstn (Z.to_nat (end_date - start_date + 1) *
            Z.to_nat (get_or (get_max_per_day cfg) 3)) activities.
Proof.
  intros Hfood Hnd Hd Hm Hle.
  set (csp := schedule_csp A_eq_dec category activities start_date end_date cfg).
  set (N := (Z.to_nat (end_date - start_date + 1) *
             Z.to_nat (get_or (get_max_per_day cfg) 3))%nat) in *.
  assert (Hvl : List.length (variables csp) = N)
    by (apply length_make_variables).
  assert (Hcons : forall asg v x, In v (variables csp) -> In x activities ->
    consistent csp asg v x =
    negb (existsb (fun y => if A_eq_dec x y then true else false) (map snd asg))).
  { intros asg v x Hv Hx. simpl variables in Hv. apply In_make_variables in Hv.
    destruct Hv as [d [s [-> [_ Hs]]]]. unfold consistent, csp.
    rewrite schedule_is_consistent. unfold dict_values.
    destruct (is_food category x) eqn:Ef.
    - specialize (Hfood x Hx Ef).
      replace (Z.geb (s + 1) (get_or (get_food_after_slot cfg) 1)) with true
        by (symmetry; apply Z.geb_le; lia).
      apply andb_true_r.
    - apply andb_true_r. }
  assert (Hdom : forall v, In v (variables csp) -> dom_of csp v = activities)
    by (intros v Hv; apply schedule_dom_of; exact Hv).
  assert (Hu : filter (fun y => negb (existsb
             (fun z => if A_eq_dec y z then true else false) (map snd (@nil (string * A)))))
             activities = activities).
  { simpl. clear. induction activities as [|a l IH]; simpl; [reflexivity|].
    f_equal. exact IH. }
  assert (Hfind := greedy_find A_eq_dec csp activities (variables csp) Hnd Hdom
                     Hcons (variables csp) [] (incl_refl _)).
  cbv zeta in Hfind. rewrite Hu, Hvl in Hfind. specialize (Hfind Hle).
  assert (Hfs : first_solution csp = Some (combine (variables csp) (firstn N activities)))
    by (unfold first_solution; rewrite Hfind; reflexivity).
  assert (Hfl : List.length (firstn N activities) = N)
    by (rewrite length_firstn; apply Nat.min_l; exact Hle).
  destruct (generate_cases A_eq_dec category activities start_date end_date cfg)
    as [H|[r [blocks [Hfs' [_ [_ [Hr [HF H]]]]]]]].
  - exfalso. rewrite generate_result in H. fold csp in H. rewrite Hfs in H.
    assert (HN : (0 < N)%nat) by (unfold N; apply Nat.mul_pos_pos; lia).
    destruct (combine (variables csp) (firstn N activities)) as [|p r] eqn:Ec.
    + apply (f_equal (@List.length _)) in Ec.
      rewrite length_combine, Hvl, Hfl, Nat.min_id in Ec. simpl in Ec. lia.
    + destruct (format_days_groups (p :: r)) as [final [Hf _]].
      rewrite Hf in H. cbn [bind] in H. injection H as H.
      destruct final as [|[k l] final]; [discriminate|].
      injection H as _ E _. discriminate.
  - exists (day_blocks_out (py_range (end_date - start_date + 1)) blocks).
    split; [exact H|]. split.
    + intros E. assert (Hin : In ("message", PStr "No valid schedule found for given constraints")
                         (day_blocks_out (py_range (end_date - start_date + 1)) blocks))
        by (rewrite E; left; reflexivity).
      apply In_day_blocks_out in Hin. destruct Hin as [d [blk [_ [_ E']]]].
      discriminate.
    + rewrite schedule_values_blocks by exact (Forall2_length HF).
      rewrite <- Hr. fold csp in Hfs'. rewrite Hfs in Hfs'. injection Hfs' as <-.
      apply map_snd_combine. exact (eq_trans Hvl (eq_sym Hfl)).
Qed.

Lemma schedule_takes_activities_in_order_witness :
  exists out,
    gen [museum; lunch; park] 0 0 (mkConfig (Some 3%Z) (Some 1%Z)) = Done out /\
    out <> no_solution /\
    schedule_values out =
    firstn (Z.to_nat (0 - 0 + 1) *
            Z.to_nat (get_or (get_max_per_day (mkConfig (Some 3%Z) (Some 1%Z))) 3))
           [museum; lunch; park].
Proof.
  apply (schedule_takes_activities_in_order activity_eq_dec activity_category
           [museum; lunch; park] 0 0 (mkConfig (Some 3%Z) (Some 1%Z))).
  - intros x _ _. simpl. lia.
  - repeat constructor; simpl; intros H; repeat destruct H as [H|H];
      try discriminate H; exact H.
  - lia.
  - simpl. lia.
  - simpl. lia.
Defined.

(** X12: a repeated activity makes no difference: removing a later
    duplicate of an activity from the input list leaves the result of
    [generate_schedule] unchanged (the no-duplicate constraint rejects
    the copy wherever the first occurrence would be tried). *)
Theorem duplicate_activity_ignored {A : Type}
    (A_eq_dec : forall x y : A, {x = y} + {x <> y})
    (category : A -> option string) (l1 : list A) (x : A) (l2 l3 : list A)
    (start_date end_date : Z) (cfg : config) :
  generate_schedule A_eq_dec category (l1 ++ x :: l2 ++ x :: l3) start_date end_date cfg =
  generate_schedule A_eq_dec category (l1 ++ x :: l2 ++ l3) start_date end_date cfg.
Proof.
  rewrite !generate_result.
  set (csp1 := schedule_csp A_eq_dec category (l1 ++ x :: l2 ++ x :: l3)
                 start_date end_date cfg).
  set (csp2 := schedule_csp A_eq_dec category (l1 ++ x :: l2 ++ l3)
                 start_date end_date cfg).
  assert (Hc : forall asg v y, consistent csp1 asg v y = consistent csp2 asg v y)
    by reflexivity.
  replace (first_solution csp1) with (first_solution csp2); [reflexivity|].
  unfold first_solution. change (variables csp2) with (variables csp1).
  rewrite (candidates_dup csp1 csp2 l1 x l2 l3 (variables csp1) []).
  - f_equal. apply find_ext_in. intros vals _. apply valid_seq_ext.
    intros asg v y _. symmetry. apply Hc.
  - intros v Hv. split.
    + apply schedule_dom_of. exact Hv.
    + apply schedule_dom_of. exact Hv.
Qed.
